(** * Rule-based question answering over a nuScenes scene

    A shallow embedding of [scene_vqa.py] (the [SceneFrame] aggregator, its
    directional predicates and the [answer] router) and of
    [quick_scene_summary] from the application module, followed by the
    properties established about them.

    Conventions of the embedding:
    - a Python [str] is a [string] whose characters are read as code points
      below 256 (Latin-1); the keywords the router looks for are all ASCII;
    - a Python/NumPy float is a binary64 [float] of the kernel, compared with
      the IEEE 754 comparisons ([PrimFloat.ltb], [PrimFloat.eqb]);
    - a Python call that may raise returns a [result];
    - NumPy's reductions, the [InstanceFrame] class and the iteration order of
      a [set] are not part of the two modules and are taken as an [Externals]
      interface. *)

From Stdlib Require Import List String Ascii Bool Arith Lia ZArith.
From Stdlib Require Import Floats.
From Stdlib Require Import Permutation Sorted.
Import ListNotations.

Local Open Scope string_scope.
Local Open Scope list_scope.

(** ** Python exceptions and fallible computations *)

Inductive exn : Type :=
| IndexError
| ValueError
| AttributeError (name : string).

Inductive result (A : Type) : Type :=
| Ok (a : A)
| Raise (e : exn).

Arguments Ok {A} a.
Arguments Raise {A} e.

Definition bind {A B : Type} (c : result A) (k : A -> result B) : result B :=
  match c with
  | Ok a => k a
  | Raise e => Raise e
  end.

Notation "x <- c ;; k" := (bind c (fun x => k))
  (at level 61, c at next level, right associativity).

(** [l[i]] on a Python list. *)
Definition py_index {A : Type} (l : list A) (i : nat) : result A :=
  match nth_error l i with
  | Some a => Ok a
  | None => Raise IndexError
  end.

(** [any(f(x) for x in l)]: stops at the first true element, and at the first
    element whose test raises. *)
Fixpoint py_any {A : Type} (f : A -> result bool) (l : list A) : result bool :=
  match l with
  | [] => Ok false
  | x :: l' => b <- f x ;; if b then Ok true else py_any f l'
  end.

(** [[x for x in l if f(x)]] where the test may raise. *)
Fixpoint py_filter {A : Type} (f : A -> result bool) (l : list A)
  : result (list A) :=
  match l with
  | [] => Ok []
  | x :: l' =>
      b <- f x ;;
      r <- py_filter f l' ;;
      Ok (if b then x :: r else r)
  end.

(** ** Python string operations *)

Module PyStr.

(** [c.isspace()] for a code point below 256. *)
Definition is_space (c : ascii) : bool :=
  let n := nat_of_ascii c in
  ((9 <=? n)%nat && (n <=? 13)%nat) || ((28 <=? n)%nat && (n <=? 32)%nat)
  || (n =? 133)%nat || (n =? 160)%nat.

(** [c.lower()] for a code point below 256. *)
Definition lower_char (c : ascii) : ascii :=
  let n := nat_of_ascii c in
  if ((65 <=? n)%nat && (n <=? 90)%nat)
     || ((192 <=? n)%nat && (n <=? 222)%nat && negb (n =? 215)%nat)
  then ascii_of_nat (n + 32)
  else c.

(** [s.lower()]. *)
Fixpoint lower (s : string) : string :=
  match s with
  | EmptyString => EmptyString
  | String c s' => String (lower_char c) (lower s')
  end.

(** [sub in s]. *)
Fixpoint contains (sub s : string) : bool :=
  if prefix sub s then true
  else match s with
       | EmptyString => false
       | String _ s' => contains sub s'
       end.

(** [s.split(sep)] for a non-empty [sep], scanning left to right.  [skip] is
    the number of characters of an already matched separator that are still
    to be stepped over.  The result is the piece under construction and the
    pieces after it. *)
Fixpoint split_from (sep : string) (skip : nat) (s : string)
  : string * list string :=
  match s with
  | EmptyString => (EmptyString, [])
  | String c s' =>
      match skip with
      | S k => split_from sep k s'
      | O =>
          if prefix sep s
          then (EmptyString,
                let (p, ps) := split_from sep (String.length sep - 1) s' in
                p :: ps)
          else let (p, ps) := split_from sep 0 s' in (String c p, ps)
      end
  end.

Definition split (sep s : string) : list string :=
  let (p, ps) := split_from sep 0 s in p :: ps.

(** [s.replace(old, new)] for a non-empty [old]. *)
Fixpoint replace_from (old new : string) (skip : nat) (s : string) : string :=
  match s with
  | EmptyString => EmptyString
  | String c s' =>
      match skip with
      | S k => replace_from old new k s'
      | O =>
          if prefix old s
          then new ++ replace_from old new (String.length old - 1) s'
          else String c (replace_from old new 0 s')
      end
  end.

Definition replace (old new s : string) : string := replace_from old new 0 s.

Definition nonempty (w : string) (ws : list string) : list string :=
  match w with
  | EmptyString => ws
  | _ => w :: ws
  end.

(** [s.split()]: the maximal runs of non-whitespace characters. *)
Fixpoint words_from (s : string) : string * list string :=
  match s with
  | EmptyString => (EmptyString, [])
  | String c s' =>
      let (w, ws) := words_from s' in
      if is_space c then (EmptyString, nonempty w ws) else (String c w, ws)
  end.

Definition split_ws (s : string) : list string :=
  let (w, ws) := words_from s in nonempty w ws.

(** [sep.join(l)]. *)
Definition join (sep : string) (l : list string) : string := concat sep l.

(** [s[:n]]. *)
Definition take (n : nat) (s : string) : string := substring 0 n s.

(** The pieces of a split as one list, and [s[k:]]; used to state what
    [split] and [replace] compute. *)
Definition pieces (r : string * list string) : list string := fst r :: snd r.

Fixpoint drop (k : nat) (s : string) : string :=
  match k, s with
  | S k', String _ s' => drop k' s'
  | _, _ => s
  end.

End PyStr.

Import PyStr.

(** ** Data model *)

(** An ego-relative position: [loc[0]] is the lateral and [loc[1]] the
    longitudinal offset. *)
Definition Loc : Type := (float * float)%type.

(** The attributes of an [InstanceFrame] that the queries read. *)
Record InstanceFrame : Type := {
  category_name : string;
  locations : list Loc
}.

(** Of a [SceneFrame] the queries only read [instances]; [nusc],
    [scene_index] and the ego track are used while it is built. *)
Record SceneFrame : Type := {
  instances : list InstanceFrame
}.

(** What the two modules call but do not define: NumPy's [mean] and
    [linalg.norm], the method [InstanceFrame.describe_movement], and the order
    in which CPython iterates over the [set] built from a sequence. *)
Class Externals : Type := {
  np_mean : list float -> float;
  np_linalg_norm : Loc -> float;
  describe_movement : InstanceFrame -> string;
  set_iter : list string -> list string
}.

(** The value [answer] returns: a [str] or an [int]. *)
Inductive AnswerValue : Type :=
| AText (s : string)
| ACount (n : nat).

(** The outcome of [client.responses.create(...)]: a response carrying
    [output_text], or an [Exception]. *)
Inductive client_outcome : Type :=
| Responded (output_text : string)
| Failed.

(** [min(l)] on floats: the first element is kept until a strictly smaller
    one is met. *)
Fixpoint py_min_from (best : float) (l : list float) : float :=
  match l with
  | [] => best
  | x :: l' => py_min_from (if PrimFloat.ltb x best then x else best) l'
  end.

Definition py_min (l : list float) : result float :=
  match l with
  | [] => Raise ValueError
  | x :: l' => Ok (py_min_from x l')
  end.

(** [l or d] on lists: an empty list is falsy. *)
Definition py_or {A : Type} (l d : list A) : list A :=
  match l with
  | [] => d
  | _ => l
  end.

(** The keywords of [for d in ["ahead", "behind", "left", "right"]]. *)
Definition direction_keywords : list string :=
  ["ahead"; "behind"; "left"; "right"].

(** [next((d for d in [...] if d in q), default)] before the default is
    applied. *)
Definition keyword_in (q : string) : option string :=
  find (fun d => contains d q) direction_keywords.

Definition or_default (o : option string) (default : string) : string :=
  match o with
  | Some d => d
  | None => default
  end.

Section Scene.

Context {ext : Externals}.

(** *** SceneFrame *)

Definition is_ahead (inst : InstanceFrame) : bool :=
  PrimFloat.ltb 0 (np_mean (map snd (locations inst))).

Definition is_behind (inst : InstanceFrame) : bool :=
  PrimFloat.ltb (np_mean (map snd (locations inst))) 0.

Definition is_left (inst : InstanceFrame) : bool :=
  PrimFloat.ltb (np_mean (map fst (locations inst))) 0.

Definition is_right (inst : InstanceFrame) : bool :=
  PrimFloat.ltb 0 (np_mean (map fst (locations inst))).

(** [getattr(self, f"is_{direction}")]: the class has exactly four attributes
    whose name starts with [is_]. *)
Definition getattr_is (direction : string)
  : result (InstanceFrame -> bool) :=
  if String.eqb direction "ahead" then Ok is_ahead
  else if String.eqb direction "behind" then Ok is_behind
  else if String.eqb direction "left" then Ok is_left
  else if String.eqb direction "right" then Ok is_right
  else Raise (AttributeError ("is_" ++ direction)).

(** [getattr(self, f"is_{direction}")(inst)]. *)
Definition holds (direction : string) (inst : InstanceFrame) : result bool :=
  p <- getattr_is direction ;; Ok (p inst).

Definition query_exist (sf : SceneFrame) (obj direction : string)
  : result bool :=
  py_any (fun inst =>
            if contains obj (category_name inst)
            then holds direction inst
            else Ok false)
         (instances sf).

(** [direction] is [None] or a string; [if direction:] is false for [None]
    and for the empty string. *)
Definition query_count (sf : SceneFrame) (obj : string)
  (direction : option string) : result nat :=
  let objs :=
    filter (fun inst => contains obj (category_name inst)) (instances sf) in
  match direction with
  | Some (String c d) =>
      objs' <- py_filter (holds (String c d)) objs ;;
      Ok (List.length objs')
  | _ => Ok (List.length objs)
  end.

(** *** Scene summary *)

Definition summarize_scene (sf : SceneFrame) : string :=
  join " " (map describe_movement (instances sf)).

(** *** VQA answering *)

(** [np.mean([np.linalg.norm(loc) for loc in inst.locations])]. *)
Definition mean_distance (inst : InstanceFrame) : float :=
  np_mean (map np_linalg_norm (locations inst)).

(** [min([... for inst in scene_frame.instances if obj in inst.category_name]
         or [float('inf')])]. *)
Definition nearest_distance (sf : SceneFrame) (obj : string) : result float :=
  py_min
    (py_or
       (map mean_distance
          (filter (fun inst => contains obj (category_name inst))
             (instances sf)))
       [infinity]).

(** [q.split(phrase)[-1].split()[0]]. *)
Definition object_after (phrase q : string) : result string :=
  py_index (split_ws (last (split phrase q) EmptyString)) 0.

Definition answer (sf : SceneFrame) (question : string)
  : result AnswerValue :=
  let q := lower question in
  if contains "passenger" q then
    Ok (AText "Passenger information is not available in nuScenes dataset.")
  else if contains "is there" q then
    obj <- object_after "is there a " q ;;
    let direction := or_default (keyword_in q) "ahead" in
    b <- query_exist sf obj direction ;;
    Ok (AText (if b then "Yes" else "No"))
  else if contains "how many" q then
    obj <- object_after "how many " q ;;
    let direction := keyword_in q in
    n <- query_count sf obj direction ;;
    Ok (ACount n)
  else if contains "what objects" q || contains "what is" q then
    let objs := set_iter (map category_name (instances sf)) in
    Ok (AText (join ", " objs))
  else if contains "which is closer" q then
    let tokens := split " or " (replace "which is closer, " "" q) in
    obj1 <- py_index tokens 0 ;;
    obj2 <- py_index tokens 1 ;;
    dist1 <- nearest_distance sf obj1 ;;
    dist2 <- nearest_distance sf obj2 ;;
    Ok (AText (if PrimFloat.ltb dist1 dist2 then obj1 else obj2))
  else if contains "describe the scene" q then
    Ok (AText (summarize_scene sf))
  else
    Ok (AText "Question type not supported.").

(** *** Quick scene summary

    [USE_GPT] and [client] are module globals of the application; [client]
    is given here by the outcome of [client.responses.create] on a prompt. *)

Definition gpt_prompt (full_desc : string) : string :=
  "Summarize this in one short sentence for an autonomous driving report: "
  ++ full_desc.

Definition quick_scene_summary (USE_GPT : bool)
  (client : string -> client_outcome) (sf : SceneFrame) : string :=
  let full_desc := summarize_scene sf in
  if USE_GPT then
    match client (gpt_prompt full_desc) with
    | Responded output_text => output_text
    | Failed => "Scene summary unavailable (GPT error)."
    end
  else
    if (200 <? String.length full_desc)%nat
    then take 200 full_desc ++ "..."
    else full_desc.

End Scene.

(** ** Routing conditions

    [answer] tries its patterns in a fixed order; these are the conditions
    under which a lower-cased question reaches a given branch. *)

Definition routes_to_exist (q : string) : bool :=
  negb (contains "passenger" q) && contains "is there" q.

Definition routes_to_count (q : string) : bool :=
  negb (contains "passenger" q) && negb (contains "is there" q)
  && contains "how many" q.

Definition routes_to_closer (q : string) : bool :=
  negb (contains "passenger" q) && negb (contains "is there" q)
  && negb (contains "how many" q)
  && negb (contains "what objects" q || contains "what is" q)
  && contains "which is closer" q.

Definition routes_to_fallback (q : string) : bool :=
  negb (contains "passenger" q) && negb (contains "is there" q)
  && negb (contains "how many" q)
  && negb (contains "what objects" q || contains "what is" q)
  && negb (contains "which is closer" q)
  && negb (contains "describe the scene" q).

(** The keywords tried before [d] in the order of [l]. *)
Fixpoint tried_before (d : string) (l : list string) : list string :=
  match l with
  | [] => []
  | x :: l' => if String.eqb x d then [] else x :: tried_before d l'
  end.

(** The instances of a scene whose category contains [obj]. *)
Definition matching (sf : SceneFrame) (obj : string) : list InstanceFrame :=
  filter (fun inst => contains obj (category_name inst)) (instances sf).

(** The distance of one side of a nearest-of-two comparison, in the words of
    the specification: infinite when no instance's category contains the
    term; otherwise, for an instance whose category contains the term, the
    mean over its locations of the Euclidean distance from the origin, such
    that no instance whose category contains the term has a smaller one. *)
Definition is_side_distance {ext : Externals} (sf : SceneFrame)
  (obj : string) (dist : float) : Prop :=
  ((forall inst, In inst (instances sf) ->
                 contains obj (category_name inst) = false)
   /\ dist = infinity)
  \/ (exists inst,
        In inst (instances sf) /\
        contains obj (category_name inst) = true /\
        dist = np_mean (map np_linalg_norm (locations inst)) /\
        forall other,
          In other (instances sf) ->
          contains obj (category_name other) = true ->
          PrimFloat.ltb
            (np_mean (map np_linalg_norm (locations other))) dist
          = false).

(** The raw summary as it is displayed without a client. *)
Definition displayed_raw (full_desc : string) : string :=
  if (200 <? String.length full_desc)%nat
  then take 200 full_desc ++ "..."
  else full_desc.

(** ** A reference instance of the external interface and sample scenes *)

Module Reference.

(** Left-to-right sum divided by the count; the mean of no value is NaN. *)
Definition mean (l : list float) : float :=
  (fold_left PrimFloat.add l 0
   / PrimFloat.of_uint63 (Uint63.of_nat (List.length l)))%float.

(** Euclidean norm of a position. *)
Definition norm (loc : Loc) : float :=
  (PrimFloat.sqrt (fst loc * fst loc + snd loc * snd loc))%float.

(** Modelled from the spec: [InstanceFrame.describe_movement], whose class is
    not among the two modules.  The phrase combines the category with the
    sign of the mean longitudinal and of the mean lateral offset, an exact
    zero falling with "behind" and "right". *)
Definition describe (inst : InstanceFrame) : string :=
  category_name inst ++ " is "
  ++ (if PrimFloat.ltb 0 (mean (map snd (locations inst)))
      then "ahead" else "behind")
  ++ " and to the "
  ++ (if PrimFloat.ltb (mean (map fst (locations inst))) 0
      then "left" else "right")
  ++ ".".

(** Distinct elements in the order of their first occurrence. *)
Definition distinct (l : list string) : list string :=
  rev (nodup string_dec (rev l)).

Definition externals : Externals := {|
  np_mean := mean;
  np_linalg_norm := norm;
  describe_movement := describe;
  set_iter := distinct
|}.

(** An object that stays exactly at the ego position. *)
Definition level_car : InstanceFrame :=
  {| category_name := "vehicle.car"; locations := [(0, 0)%float] |}.

(** A bus at distance 10 and a truck at distance 4. *)
Definition bus : InstanceFrame :=
  {| category_name := "vehicle.bus"; locations := [(6, 8)%float] |}.

Definition truck : InstanceFrame :=
  {| category_name := "vehicle.truck"; locations := [(0, 4)%float] |}.

Definition level_scene : SceneFrame := {| instances := [level_car] |}.

Definition bus_truck_scene : SceneFrame := {| instances := [bus; truck] |}.

(** A client whose every call raises. *)
Definition failing_client (prompt : string) : client_outcome := Failed.

End Reference.

(** ** Questions that cannot be answered

    [blank s] says that [s.split()] is empty; [question_unanswerable] is the
    condition, on a lower-cased question, under which the token the router
    indexes is missing. *)

Fixpoint blank (s : string) : bool :=
  match s with
  | EmptyString => true
  | String c s' => is_space c && blank s'
  end.

Definition question_unanswerable (q : string) : bool :=
  (routes_to_exist q && blank (last (split "is there a " q) EmptyString))
  || (routes_to_count q && blank (last (split "how many " q) EmptyString))
  || (routes_to_closer q
      && negb (contains " or " (replace "which is closer, " "" q))).

(** The sample questions the application offers. *)
Definition prebuilt_questions : list string :=
  [ "Is there a bus ahead?";
    "How many pedestrians are to my left?";
    "What objects are ahead?";
    "Which is closer, bus or truck?";
    "Describe the scene" ].

(** ** The dataset and the walks over a scene

    What the two modules read from the [NuScenes] object: the list of scene
    records, and the tables [sample] and [sample_annotation] looked up by
    token with [nusc.get], which raises [KeyError] on an unknown token.
    The [while sample_token:] loops run on fuel: [OutOfFuel] says that the
    loop was still running when the fuel ended. *)

Module Dataset.

Record SceneRecord : Type := {
  first_sample_token : string
}.

(** A record of the [sample] table: [anns], [next] (empty on the last
    sample), and the entries [CAM_FRONT] and [LIDAR_TOP] of [data]. *)
Record Sample : Type := {
  anns : list string;
  next : string;
  CAM_FRONT : string;
  LIDAR_TOP : string
}.

Record NuScenes : Type := {
  scene : list SceneRecord;
  sample : string -> option Sample;
  (** [nusc.get('sample_annotation', ann)['instance_token']] *)
  instance_token : string -> option string
}.

(** [IOFailure call path] is the exception with which the named
    file-system, rendering or video call fails on [path]. *)
Inductive error : Type :=
| IndexError
| KeyError (table token : string)
| ZeroDivisionError
| UnboundLocalError (name : string)
| IOFailure (call path : string).

Inductive outcome (A : Type) : Type :=
| Returns (a : A)
| Raises (e : error)
| OutOfFuel.

Arguments Returns {A} a.
Arguments Raises {A} e.
Arguments OutOfFuel {A}.

(** [bool(s)] for a string. *)
Definition truthy (s : string) : bool :=
  match s with
  | EmptyString => false
  | String _ _ => true
  end.

(** The loop of [_build_instances]: [annotations] grows by the [anns] of
    each sample met while following [next]. *)
Fixpoint collect_annotations (nusc : NuScenes) (fuel : nat)
  (sample_token : string) (annotations : list string)
  : outcome (list string) :=
  match fuel with
  | O => OutOfFuel
  | S fuel' =>
      if truthy sample_token then
        match sample nusc sample_token with
        | None => Raises (KeyError "sample" sample_token)
        | Some s =>
            collect_annotations nusc fuel' (next s) (annotations ++ anns s)
        end
      else Returns annotations
  end.

(** The generator [nusc.get('sample_annotation', ann)['instance_token']
    for ann in annotations], consumed by [set(...)]. *)
Fixpoint instance_tokens (nusc : NuScenes) (annotations : list string)
  : outcome (list string) :=
  match annotations with
  | [] => Returns []
  | ann :: rest =>
      match instance_token nusc ann with
      | None => Raises (KeyError "sample_annotation" ann)
      | Some token =>
          match instance_tokens nusc rest with
          | Returns tokens => Returns (token :: tokens)
          | Raises e => Raises e
          | OutOfFuel => OutOfFuel
          end
      end
  end.

(** [SceneFrame._build_instances].  [new_instance_frame token] stands for
    [InstanceFrame(self.nusc, token, self.scene_index,
    self.scene_ego_positions, self.ego_start_time)], whose class is defined
    elsewhere; [scene_index] is a position in [nusc.scene]. *)
Definition build_instances {ext : Externals}
  (new_instance_frame : string -> InstanceFrame)
  (nusc : NuScenes) (scene_index : nat) (fuel : nat)
  : outcome (list InstanceFrame) :=
  match nth_error (scene nusc) scene_index with
  | None => Raises IndexError
  | Some sc =>
      match collect_annotations nusc fuel (first_sample_token sc) [] with
      | Returns annotations =>
          match instance_tokens nusc annotations with
          | Returns tokens =>
              let unique_instances := set_iter tokens in
              Returns (map new_instance_frame unique_instances)
          | Raises e => Raises e
          | OutOfFuel => OutOfFuel
          end
      | Raises e => Raises e
      | OutOfFuel => OutOfFuel
      end
  end.

(** *** generate_scene_visuals *)

(** A rendered frame: the sample-data token given to
    [render_sample_data] and the path the image is written to and read back
    from. *)
Definition Frame : Type := (string * string)%type.

(** The calls of [generate_scene_visuals] that leave the program, each by
    whether it succeeds; a call that does not succeed raises.
    [makedirs path] is [os.makedirs(path, exist_ok=True)],
    [render_sample_data token out_path] the method of the data set,
    [imread path] and [mimsave path frames] the functions of [imageio]. *)
Record IO : Type := {
  makedirs : string -> bool;
  render_sample_data : string -> string -> bool;
  imread : string -> bool;
  mimsave : string -> list Frame -> bool
}.

(** Rendering a frame and reading it back both succeed. *)
Definition frame_ok (io : IO) (f : Frame) : bool :=
  render_sample_data io (fst f) (snd f) && imread io (snd f).

(** The local variables of [generate_scene_visuals] that the loop
    updates.  [cur_sample] is [None] while [sample] is unbound. *)
Record Visuals : Type := {
  sample_token : string;
  front_frames : list Frame;
  lidar_frames : list Frame;
  first_front_img : option string;
  first_lidar_img : option string;
  frame_count : nat;
  cur_sample : option Sample
}.

(** [x if x is not None else y] as used for the two preview images. *)
Definition keep_first (first : option string) (path : string)
  : option string :=
  match first with
  | None => Some path
  | Some p => Some p
  end.

Section Visuals.

(** [os.path.join]. *)
Variable path_join : string -> string -> string.

Variable io : IO.
Variable nusc : NuScenes.
Variable output_dir : string.
Variable frame_skip : Z.

(** [frame_count % frame_skip == 0]; the remainder takes the sign of the
    divisor in Python as in [Z.modulo], and a zero divisor raises. *)
Definition due (frame_count : nat) : outcome bool :=
  if Z.eqb frame_skip 0 then Raises ZeroDivisionError
  else Returns (Z.eqb (Z.modulo (Z.of_nat frame_count) frame_skip) 0).

(** The part of the loop body under [if frame_count % frame_skip == 0]:
    look the sample up, render and read back the front camera image, then
    the LIDAR image. *)
Definition render (st : Visuals) : outcome Visuals :=
  match sample nusc (sample_token st) with
  | None => Raises (KeyError "sample" (sample_token st))
  | Some s =>
      let front_path :=
        path_join output_dir ("front_" ++ sample_token st ++ ".png") in
      if negb (render_sample_data io (CAM_FRONT s) front_path) then
        Raises (IOFailure "render_sample_data" front_path)
      else if negb (imread io front_path) then
        Raises (IOFailure "imread" front_path)
      else
        let lidar_path :=
          path_join output_dir ("lidar_" ++ sample_token st ++ ".png") in
        if negb (render_sample_data io (LIDAR_TOP s) lidar_path) then
          Raises (IOFailure "render_sample_data" lidar_path)
        else if negb (imread io lidar_path) then
          Raises (IOFailure "imread" lidar_path)
        else
          Returns {|
            sample_token := sample_token st;
            front_frames := front_frames st ++ [(CAM_FRONT s, front_path)];
            lidar_frames := lidar_frames st ++ [(LIDAR_TOP s, lidar_path)];
            first_front_img := keep_first (first_front_img st) front_path;
            first_lidar_img := keep_first (first_lidar_img st) lidar_path;
            frame_count := frame_count st;
            cur_sample := Some s
          |}
  end.

(** [frame_count += 1; sample_token = sample['next']]. *)
Definition advance (st : Visuals) : outcome Visuals :=
  match cur_sample st with
  | None => Raises (UnboundLocalError "sample")
  | Some s =>
      Returns {|
        sample_token := next s;
        front_frames := front_frames st;
        lidar_frames := lidar_frames st;
        first_front_img := first_front_img st;
        first_lidar_img := first_lidar_img st;
        frame_count := S (frame_count st);
        cur_sample := cur_sample st
      |}
  end.

Definition visuals_body (st : Visuals) : outcome Visuals :=
  match due (frame_count st) with
  | Returns true =>
      match render st with
      | Returns st' => advance st'
      | Raises e => Raises e
      | OutOfFuel => OutOfFuel
      end
  | Returns false => advance st
  | Raises e => Raises e
  | OutOfFuel => OutOfFuel
  end.

Fixpoint visuals_loop (fuel : nat) (st : Visuals) : outcome Visuals :=
  match fuel with
  | O => OutOfFuel
  | S fuel' =>
      if truthy (sample_token st) then
        match visuals_body st with
        | Returns st' => visuals_loop fuel' st'
        | Raises e => Raises e
        | OutOfFuel => OutOfFuel
        end
      else Returns st
  end.

(** What the function hands over: the two preview paths and, for each
    video, its path and the frames written to it ([fps] only goes to the
    video writer). *)
Record VisualsResult : Type := {
  preview_front : option string;
  preview_lidar : option string;
  front_video : string * list Frame;
  lidar_video : string * list Frame
}.

Definition generate_scene_visuals (scene_index : nat) (fuel : nat)
  : outcome VisualsResult :=
  if negb (makedirs io output_dir) then
    Raises (IOFailure "makedirs" output_dir)
  else
  match nth_error (scene nusc) scene_index with
  | None => Raises IndexError
  | Some sc =>
      match
        visuals_loop fuel {|
          sample_token := first_sample_token sc;
          front_frames := [];
          lidar_frames := [];
          first_front_img := None;
          first_lidar_img := None;
          frame_count := 0;
          cur_sample := None
        |}
      with
      | Returns st =>
          let front_video_path := path_join output_dir "front_camera.mp4" in
          let lidar_video_path := path_join output_dir "lidar_bev.mp4" in
          if negb (mimsave io front_video_path (front_frames st)) then
            Raises (IOFailure "mimsave" front_video_path)
          else if negb (mimsave io lidar_video_path (lidar_frames st)) then
            Raises (IOFailure "mimsave" lidar_video_path)
          else
            Returns {|
              preview_front := first_front_img st;
              preview_lidar := first_lidar_img st;
              front_video := (front_video_path, front_frames st);
              lidar_video := (lidar_video_path, lidar_frames st)
            |}
      | Raises e => Raises e
      | OutOfFuel => OutOfFuel
      end
  end.

End Visuals.

(** [reaches nusc token visited token']: following [next] from [token]
    goes through the samples [visited], all of them in the table, and
    arrives at [token']. *)
Inductive reaches (nusc : NuScenes)
  : string -> list string -> string -> Prop :=
| reaches_here (token : string) : reaches nusc token [] token
| reaches_step (token : string) (s : Sample) (rest : list string)
    (token' : string) :
    truthy token = true ->
    sample nusc token = Some s ->
    reaches nusc (next s) rest token' ->
    reaches nusc token (token :: rest) token'.

(** A finite chain: the walk ends on the empty [next] of the last sample. *)
Definition chain (nusc : NuScenes) (token : string) (visited : list string)
  : Prop :=
  reaches nusc token visited EmptyString.

(** The record of a token that is in the table. *)
Definition sample_of (nusc : NuScenes) (token : string) : Sample :=
  match sample nusc token with
  | Some s => s
  | None => {| anns := []; next := EmptyString;
               CAM_FRONT := EmptyString; LIDAR_TOP := EmptyString |}
  end.

(** The frames that rendering the sample [token] appends. *)
Definition front_frame_of (path_join : string -> string -> string)
  (nusc : NuScenes) (output_dir token : string) : Frame :=
  (CAM_FRONT (sample_of nusc token),
   path_join output_dir ("front_" ++ token ++ ".png")%string).

Definition lidar_frame_of (path_join : string -> string -> string)
  (nusc : NuScenes) (output_dir token : string) : Frame :=
  (LIDAR_TOP (sample_of nusc token),
   path_join output_dir ("lidar_" ++ token ++ ".png")%string).

(** A state of the loop with another value of [frame_count]. *)
Definition with_count (st : Visuals) (count : nat) : Visuals := {|
  sample_token := sample_token st;
  front_frames := front_frames st;
  lidar_frames := lidar_frames st;
  first_front_img := first_front_img st;
  first_lidar_img := first_lidar_img st;
  frame_count := count;
  cur_sample := cur_sample st
|}.

(** A sample data set of two samples and three annotations of two
    instances. *)
Definition mini : NuScenes := {|
  scene := [ {| first_sample_token := "s1" |} ];
  sample := fun token =>
    if String.eqb token "s1" then
      Some {| anns := ["a1"; "a2"]; next := "s2";
              CAM_FRONT := "c1"; LIDAR_TOP := "l1" |}
    else if String.eqb token "s2" then
      Some {| anns := ["a3"]; next := EmptyString;
              CAM_FRONT := "c2"; LIDAR_TOP := "l2" |}
    else None;
  instance_token := fun ann =>
    if String.eqb ann "a1" then Some "bus1"
    else if String.eqb ann "a2" then Some "truck1"
    else if String.eqb ann "a3" then Some "bus1"
    else None
|}.

(** A data set whose only sample is its own successor. *)
Definition looping : NuScenes := {|
  scene := [ {| first_sample_token := "s1" |} ];
  sample := fun token =>
    if String.eqb token "s1" then
      Some {| anns := []; next := "s1";
              CAM_FRONT := "c1"; LIDAR_TOP := "l1" |}
    else None;
  instance_token := fun _ => None
|}.


Definition slash_join (dir name : string) : string := dir ++ "/" ++ name.

(** An environment in which every call succeeds, and one in which only the
    directory named by the empty string cannot be created. *)
Definition io_fine : IO := {|
  makedirs := fun _ => true;
  render_sample_data := fun _ _ => true;
  imread := fun _ => true;
  mimsave := fun _ _ => true
|}.


Definition bare_instance (token : string) : InstanceFrame :=
  {| category_name := token; locations := [] |}.

End Dataset.

(** A [set] iterates over each of its distinct elements once. *)
Definition iterates_as_set (iter : list string -> list string) : Prop :=
  forall l, NoDup (iter l) /\ forall x, In x (iter l) <-> In x l.

(** ** Scene snapshot *)

(** [sorted(l, key=lambda x: len(x.locations), reverse=True)]: the sort is
    stable, so an instance goes before the first later one that has no
    more locations than it has. *)
Fixpoint insert_by_track_length (x : InstanceFrame)
  (l : list InstanceFrame) : list InstanceFrame :=
  match l with
  | [] => [x]
  | y :: l' =>
      if (List.length (locations y) <=? List.length (locations x))%nat
      then x :: y :: l'
      else y :: insert_by_track_length x l'
  end.

Fixpoint sorted_by_track_length (l : list InstanceFrame)
  : list InstanceFrame :=
  match l with
  | [] => []
  | x :: l' => insert_by_track_length x (sorted_by_track_length l')
  end.

(** [moving_instances] of [generate_scene_snapshot], for a [max_objects]
    that is not negative. *)
Definition moving_instances (sf : SceneFrame) (max_objects : nat)
  : list InstanceFrame :=
  firstn max_objects (sorted_by_track_length (instances sf)).

(** The legend labels [inst.category_name[:20]] of the plotted tracks. *)
Definition snapshot_labels (sf : SceneFrame) (max_objects : nat)
  : list string :=
  map (fun inst => take 20 (category_name inst))
      (moving_instances sf max_objects).

(** [no_shorter x y]: the track of [x] has at least as many locations as
    that of [y]. *)
Definition no_shorter (x y : InstanceFrame) : Prop :=
  List.length (locations y) <= List.length (locations x).

(** ** The IEEE 754 order on binary64

    [PrimFloat.ltb] is specified by [SFcompare] on [spec_float]; it is
    irreflexive and transitive on all floats, NaN included. *)

Module FloatOrder.

(** The comparison of two finite floats of sign [+], by exponent and then by
    mantissa, as [SFcompare] writes it. *)
Definition finite_cmp (e1 e2 : Z) (m1 m2 : positive) : comparison :=
  match (e1 ?= e2)%Z with
  | Lt => Lt
  | Gt => Gt
  | Eq => Pos.compare_cont Eq m1 m2
  end.

Lemma finite_cmp_lt (e1 e2 : Z) (m1 m2 : positive) :
  finite_cmp e1 e2 m1 m2 = Lt
  <-> (e1 < e2 \/ (e1 = e2 /\ (m1 < m2)%positive))%Z.
Proof.
  unfold finite_cmp. change (Pos.compare_cont Eq) with Pos.compare.
  destruct (Z.compare_spec e1 e2).
  - rewrite Pos.compare_lt_iff. intuition lia.
  - intuition lia.
  - intuition (try discriminate; lia).
Qed.

Lemma finite_cmp_gt (e1 e2 : Z) (m1 m2 : positive) :
  finite_cmp e1 e2 m1 m2 = Gt
  <-> (e2 < e1 \/ (e1 = e2 /\ (m2 < m1)%positive))%Z.
Proof.
  unfold finite_cmp. change (Pos.compare_cont Eq) with Pos.compare.
  destruct (Z.compare_spec e1 e2).
  - rewrite Pos.compare_gt_iff. intuition lia.
  - intuition (try discriminate; lia).
  - intuition lia.
Qed.

Lemma SFltb_irrefl (x : spec_float) : SFltb x x = false.
Proof.
  unfold SFltb.
  destruct x as [s| s| |s m e]; try destruct s; simpl; try reflexivity;
    rewrite Z.compare_refl, Pos.compare_cont_refl; reflexivity.
Qed.

Lemma SFeqb_not_ltb (x y : spec_float) :
  SFeqb x y = true -> SFltb x y = false.
Proof.
  unfold SFeqb, SFltb. destruct (SFcompare x y) as [[]|]; easy.
Qed.

Lemma finite_cmp_opp (e1 e2 : Z) (m1 m2 : positive) :
  match (e1 ?= e2)%Z with
  | Lt => Gt | Gt => Lt | Eq => CompOpp (Pos.compare_cont Eq m1 m2)
  end = CompOpp (finite_cmp e1 e2 m1 m2).
Proof. unfold finite_cmp. now destruct (e1 ?= e2)%Z. Qed.

Lemma SFltb_trans (x y z : spec_float) :
  SFltb x y = true -> SFltb y z = true -> SFltb x z = true.
Proof.
  unfold SFltb.
  destruct x as [s1| s1| |s1 m1 e1], y as [s2| s2| |s2 m2 e2],
    z as [s3| s3| |s3 m3 e3]; simpl;
    try destruct s1; try destruct s2; try destruct s3; simpl;
    try discriminate; try reflexivity.
  - rewrite !finite_cmp_opp.
    destruct (finite_cmp e1 e2 m1 m2) eqn:E12; try discriminate.
    destruct (finite_cmp e2 e3 m2 m3) eqn:E23; try discriminate.
    intros _ _. apply finite_cmp_gt in E12, E23.
    assert (E13 : finite_cmp e1 e3 m1 m3 = Gt) by (apply finite_cmp_gt; lia).
    now rewrite E13.
  - fold (finite_cmp e1 e2 m1 m2) (finite_cmp e2 e3 m2 m3)
         (finite_cmp e1 e3 m1 m3).
    destruct (finite_cmp e1 e2 m1 m2) eqn:E12; try discriminate.
    destruct (finite_cmp e2 e3 m2 m3) eqn:E23; try discriminate.
    intros _ _. apply finite_cmp_lt in E12, E23.
    assert (E13 : finite_cmp e1 e3 m1 m3 = Lt) by (apply finite_cmp_lt; lia).
    now rewrite E13.
Qed.

Lemma ltb_irrefl (x : float) : PrimFloat.ltb x x = false.
Proof. rewrite FloatAxioms.ltb_spec. apply SFltb_irrefl. Qed.

Lemma ltb_trans (x y z : float) :
  PrimFloat.ltb x y = true -> PrimFloat.ltb y z = true ->
  PrimFloat.ltb x z = true.
Proof. rewrite !FloatAxioms.ltb_spec. apply SFltb_trans. Qed.

Lemma eqb_not_ltb (x y : float) :
  PrimFloat.eqb x y = true -> PrimFloat.ltb x y = false.
Proof.
  rewrite FloatAxioms.eqb_spec, FloatAxioms.ltb_spec. apply SFeqb_not_ltb.
Qed.

Lemma eqb_zero_not_gt (x : float) :
  PrimFloat.eqb x 0 = true -> PrimFloat.ltb 0 x = false.
Proof.
  rewrite FloatAxioms.eqb_spec, FloatAxioms.ltb_spec.
  change (Prim2SF 0) with (S754_zero false).
  unfold SFeqb, SFltb.
  destruct (Prim2SF x) as [s| s| |s m e]; simpl; try destruct s; easy.
Qed.

End FloatOrder.

(** ** What the string operations compute *)

Module PyStrFacts.

Lemma prefix_iff (p s : string) :
  prefix p s = true <-> exists r, s = (p ++ r)%string.
Proof.
  revert s. induction p as [|a p IH]; intros s; simpl.
  - destruct s; split; eauto.
  - destruct s as [|b s]; simpl.
    + split; [discriminate | intros [r E]; discriminate].
    + destruct (ascii_dec a b) as [->|N].
      * rewrite IH. split; intros [r E]; exists r; congruence.
      * split; [discriminate | intros [r E]; congruence].
Qed.

Lemma contains_unfold (sub s : string) :
  contains sub s
  = if prefix sub s then true
    else match s with
         | EmptyString => false
         | String _ s' => contains sub s'
         end.
Proof. now destruct s. Qed.

Lemma contains_iff (sub s : string) :
  contains sub s = true <-> exists a b, s = (a ++ sub ++ b)%string.
Proof.
  induction s as [|c s IH]; rewrite contains_unfold.
  - destruct (prefix sub "") eqn:P.
    + apply prefix_iff in P. destruct P as [r E].
      split; [intros _; exists "", r; exact E | reflexivity].
    + split; [discriminate|]. intros (a & b & E).
      destruct a; simpl in E.
      * assert (prefix sub "" = true) by (apply prefix_iff; eauto). congruence.
      * discriminate.
  - destruct (prefix sub (String c s)) eqn:P.
    + apply prefix_iff in P. destruct P as [r E].
      split; [intros _; exists "", r; exact E | reflexivity].
    + rewrite IH. split.
      * intros (a & b & ->). exists (String c a), b. reflexivity.
      * intros (a & b & E). destruct a as [|c' a]; simpl in E.
        -- assert (prefix sub (String c s) = true)
             by (apply prefix_iff; eauto). congruence.
        -- injection E as _ ->. eauto.
Qed.

Lemma drop_app (p r : string) : drop (String.length p) (p ++ r) = r.
Proof. induction p as [|a p IH]; simpl; [now destruct r | exact IH]. Qed.

Lemma join_cons_char (sep : string) (c : ascii) (p : string)
  (ps : list string) :
  join sep (String c p :: ps) = String c (join sep (p :: ps)).
Proof. unfold join. simpl. now destruct ps. Qed.

Lemma join_empty_head (sep p : string) (ps : list string) :
  join sep (EmptyString :: p :: ps) = (sep ++ join sep (p :: ps))%string.
Proof. reflexivity. Qed.

Lemma split_from_pieces (sep : string) (k : nat) (s : string) :
  split_from sep k s
  = (fst (split_from sep k s), snd (split_from sep k s)).
Proof. now destruct (split_from sep k s). Qed.

(** Joining the pieces with the separator gives the text back. *)
Lemma join_split_from (sep : string) (s : string) (k : nat) :
  sep <> EmptyString ->
  join sep (pieces (split_from sep k s)) = drop k s.
Proof.
  intros N. revert k. induction s as [|c s IH]; intros k.
  - now destruct k.
  - destruct k as [|k]; cbn [split_from drop]; [|apply IH].
    destruct (prefix sep (String c s)) eqn:P.
    + rewrite (split_from_pieces sep _ s). unfold pieces. cbn [fst snd].
      rewrite join_empty_head.
      change (fst (split_from sep (String.length sep - 1) s)
              :: snd (split_from sep (String.length sep - 1) s))
        with (pieces (split_from sep (String.length sep - 1) s)).
      rewrite IH.
      apply prefix_iff in P. destruct P as [r E].
      destruct sep as [|a sep]; [congruence|].
      simpl in E. injection E as -> ->.
      cbn [String.length]. rewrite Nat.sub_succ, Nat.sub_0_r, drop_app.
      reflexivity.
    + rewrite (split_from_pieces sep 0 s). unfold pieces. cbn [fst snd].
      rewrite join_cons_char. f_equal.
      change (fst (split_from sep 0 s) :: snd (split_from sep 0 s))
        with (pieces (split_from sep 0 s)).
      now rewrite IH.
Qed.

Lemma split_pieces (sep s : string) :
  split sep s = pieces (split_from sep 0 s).
Proof. unfold split, pieces. now destruct (split_from sep 0 s). Qed.

Lemma join_split (sep s : string) :
  sep <> EmptyString -> join sep (split sep s) = s.
Proof.
  intros N. rewrite split_pieces, join_split_from by exact N. now destruct s.
Qed.

(** [s.replace(old, new)] is [new.join(s.split(old))]. *)
Lemma replace_from_join (old new : string) (s : string) (k : nat) :
  replace_from old new k s = join new (pieces (split_from old k s)).
Proof.
  revert k. induction s as [|c s IH]; intros k.
  - now destruct k.
  - destruct k as [|k]; cbn [split_from replace_from]; [|apply IH].
    destruct (prefix old (String c s)).
    + rewrite (split_from_pieces old _ s). unfold pieces. cbn [fst snd].
      rewrite join_empty_head. f_equal. rewrite IH. reflexivity.
    + rewrite (split_from_pieces old 0 s). unfold pieces. cbn [fst snd].
      rewrite join_cons_char. f_equal. rewrite IH. reflexivity.
Qed.

Lemma replace_join_split (old new s : string) :
  replace old new s = join new (split old s).
Proof. unfold replace. now rewrite replace_from_join, split_pieces. Qed.

Example split_keeps_empty_pieces :
  split " or " "bus or truck?" = ["bus"; "truck?"]
  /\ split " or " "bus or " = ["bus"; ""]
  /\ split "is there a " "is there a " = [""; ""]
  /\ split "ab" "xabyabab" = ["x"; "y"; ""; ""].
Proof. repeat split. Qed.

Example split_ws_drops_blank_runs :
  split_ws "  bus   ahead? " = ["bus"; "ahead?"]
  /\ split_ws "   " = [] /\ split_ws "" = [].
Proof. repeat split. Qed.

Example lower_and_contains :
  lower "Is There A BUS Ahead?" = "is there a bus ahead?"
  /\ contains "bus" "vehicle.bus.rigid" = true
  /\ contains "truck?" "vehicle.truck" = false
  /\ contains "" "" = true.
Proof. repeat split. Qed.

End PyStrFacts.

(** ** Fallible comprehensions whose test cannot raise *)

Lemma py_any_pure {A : Type} (f : A -> bool) (l : list A) :
  py_any (fun x => Ok (f x)) l = Ok (existsb f l).
Proof.
  induction l as [|x l IH]; simpl; [reflexivity|].
  destruct (f x); [reflexivity | exact IH].
Qed.

Lemma py_filter_pure {A : Type} (f : A -> bool) (l : list A) :
  py_filter (fun x => Ok (f x)) l = Ok (filter f l).
Proof.
  induction l as [|x l IH]; simpl; [reflexivity|].
  rewrite IH. simpl. reflexivity.
Qed.

Lemma py_any_ext {A : Type} (f g : A -> result bool) (l : list A) :
  (forall x, f x = g x) -> py_any f l = py_any g l.
Proof.
  intros E. induction l as [|x l IH]; simpl; [reflexivity|].
  now rewrite E, IH.
Qed.

Lemma py_filter_ext {A : Type} (f g : A -> result bool) (l : list A) :
  (forall x, f x = g x) -> py_filter f l = py_filter g l.
Proof.
  intros E. induction l as [|x l IH]; simpl; [reflexivity|].
  now rewrite E, IH.
Qed.

Lemma existsb_filter {A : Type} (f g : A -> bool) (l : list A) :
  existsb (fun x => f x && g x) l = existsb g (filter f l).
Proof.
  induction l as [|x l IH]; simpl; [reflexivity|].
  destruct (f x); simpl; now rewrite IH.
Qed.

Lemma existsb_count {A : Type} (p : A -> bool) (l : list A) :
  existsb p l = true <-> 0 < List.length (filter p l).
Proof.
  induction l as [|x l IH]; simpl.
  - split; [discriminate | lia].
  - destruct (p x); simpl; [split; [lia | reflexivity] | exact IH].
Qed.

Lemma keyword_nonempty (d : string) :
  In d direction_keywords -> exists c d', d = String c d'.
Proof.
  intros [<-|[<-|[<-|[<-|[]]]]]; eexists; eexists; reflexivity.
Qed.

Section SceneQueries.

Context {ext : Externals}.

(** Each of the four keywords names a predicate of the class. *)
Lemma getattr_keyword (d : string) :
  In d direction_keywords -> exists p, getattr_is d = Ok p.
Proof.
  intros [<-|[<-|[<-|[<-|[]]]]]; eexists; reflexivity.
Qed.

Lemma query_exist_resolved (sf : SceneFrame) (c d : string) p :
  getattr_is d = Ok p ->
  query_exist sf c d = Ok (existsb p (matching sf c)).
Proof.
  intros G. unfold query_exist, matching.
  rewrite <- existsb_filter, <- py_any_pure.
  apply py_any_ext. intros inst. unfold holds. rewrite G. simpl.
  now destruct (contains c (category_name inst)).
Qed.

Lemma query_count_resolved (sf : SceneFrame) (c d : string) p :
  getattr_is d = Ok p -> d <> EmptyString ->
  query_count sf c (Some d) = Ok (List.length (filter p (matching sf c))).
Proof.
  intros G N. unfold query_count. fold (matching sf c).
  destruct d as [|a d]; [congruence|].
  rewrite (py_filter_ext _ (fun inst => Ok (p inst))).
  - now rewrite py_filter_pure.
  - intros inst. unfold holds. now rewrite G.
Qed.

(** With one of the four keywords neither query raises. *)
Lemma query_exist_returns (sf : SceneFrame) (c d : string) :
  In d direction_keywords -> exists b, query_exist sf c d = Ok b.
Proof.
  intros Hd. destruct (getattr_keyword d Hd) as [p G].
  exists (existsb p (matching sf c)). now apply query_exist_resolved.
Qed.

Lemma query_count_returns (sf : SceneFrame) (c d : string) :
  In d direction_keywords -> exists n, query_count sf c (Some d) = Ok n.
Proof.
  intros Hd. destruct (getattr_keyword d Hd) as [p G].
  destruct (keyword_nonempty d Hd) as (a & d' & ->).
  exists (List.length (filter p (matching sf c))).
  apply query_count_resolved; [exact G | discriminate].
Qed.

Lemma query_count_unfiltered (sf : SceneFrame) (c : string) :
  query_count sf c None = Ok (List.length (matching sf c)).
Proof. reflexivity. Qed.

Lemma matching_none (sf : SceneFrame) (c : string) :
  (forall inst, In inst (instances sf) ->
                contains c (category_name inst) = false) ->
  matching sf c = [].
Proof.
  unfold matching. induction (instances sf) as [|i l IH]; intros H; simpl.
  - reflexivity.
  - rewrite (H i (or_introl eq_refl)). apply IH.
    intros inst Hin. apply H. now right.
Qed.

(** C4: for a category substring [c] and a direction [d] among ahead,
    behind, left and right, [query_exist] and [query_count] both return, and
    [query_exist(c, d)] is true exactly when [query_count(c, d) > 0]. *)
Theorem query_exist_iff_count_positive (sf : SceneFrame) (c d : string) :
  In d direction_keywords ->
  exists b n,
    query_exist sf c d = Ok b /\
    query_count sf c (Some d) = Ok n /\
    (b = true <-> 0 < n).
Proof.
  intros Hd.
  destruct (getattr_keyword d Hd) as [p G].
  destruct (keyword_nonempty d Hd) as (a & d' & ->).
  exists (existsb p (matching sf c)),
         (List.length (filter p (matching sf c))).
  split; [now apply query_exist_resolved|].
  split; [apply query_count_resolved; [exact G | discriminate]|].
  apply existsb_count.
Qed.

(** C5: for a category substring [c] and a direction [d] among ahead,
    behind, left and right, the count without a direction filter is at least
    the count filtered by [d]. *)
Theorem query_count_unfiltered_dominates (sf : SceneFrame) (c d : string) :
  In d direction_keywords ->
  exists total filtered,
    query_count sf c None = Ok total /\
    query_count sf c (Some d) = Ok filtered /\
    filtered <= total.
Proof.
  intros Hd.
  destruct (getattr_keyword d Hd) as [p G].
  destruct (keyword_nonempty d Hd) as (a & d' & ->).
  exists (List.length (matching sf c)),
         (List.length (filter p (matching sf c))).
  split; [apply query_count_unfiltered|].
  split; [apply query_count_resolved; [exact G | discriminate]|].
  apply filter_length_le.
Qed.

(** C8: when no instance's category name contains the substring,
    [query_count] returns 0 without raising, whatever the direction filter is
    (none, a keyword, or any other string). *)
Theorem query_count_no_match (sf : SceneFrame) (c : string)
  (direction : option string) :
  (forall inst, In inst (instances sf) ->
                contains c (category_name inst) = false) ->
  query_count sf c direction = Ok 0.
Proof.
  intros H. unfold query_count. fold (matching sf c).
  rewrite (matching_none sf c H).
  destruct direction as [[|a d]|]; reflexivity.
Qed.

End SceneQueries.

(** ** Python's [min] on floats *)

Lemma py_min_from_undercut (l : list float) (best x : float) :
  PrimFloat.ltb x (py_min_from best l) = true -> PrimFloat.ltb x best = true.
Proof.
  revert best. induction l as [|y l IH]; intros best H; simpl in H.
  - exact H.
  - apply IH in H. destruct (PrimFloat.ltb y best) eqn:E.
    + exact (FloatOrder.ltb_trans _ _ _ H E).
    + exact H.
Qed.

Lemma py_min_from_in (l : list float) (best : float) :
  In (py_min_from best l) (best :: l).
Proof.
  revert best. induction l as [|y l IH]; intros best; simpl.
  - now left.
  - destruct (IH (if PrimFloat.ltb y best then y else best)) as [E|E].
    + rewrite <- E. destruct (PrimFloat.ltb y best); auto.
    + auto.
Qed.

Lemma py_min_from_lower (l : list float) (best x : float) :
  In x (best :: l) -> PrimFloat.ltb x (py_min_from best l) = false.
Proof.
  revert best. induction l as [|y l IH]; intros best H.
  - destruct H as [<-|[]]. apply FloatOrder.ltb_irrefl.
  - simpl. destruct H as [<-|[<-|H]].
    + destruct (PrimFloat.ltb best (py_min_from
                  (if PrimFloat.ltb y best then y else best) l)) eqn:E;
        [|reflexivity].
      apply py_min_from_undercut in E.
      destruct (PrimFloat.ltb y best) eqn:Ey.
      * pose proof (FloatOrder.ltb_trans _ _ _ E Ey) as C.
        now rewrite FloatOrder.ltb_irrefl in C.
      * now rewrite FloatOrder.ltb_irrefl in E.
    + destruct (PrimFloat.ltb y best) eqn:Ey.
      * apply IH. now left.
      * destruct (PrimFloat.ltb y (py_min_from best l)) eqn:E;
          [|reflexivity].
        apply py_min_from_undercut in E. congruence.
    + apply IH. now right.
Qed.

Lemma find_priority (f : string -> bool) (l : list string) (d : string) :
  In d l -> f d = true ->
  (forall d', In d' (tried_before d l) -> f d' = false) ->
  find f l = Some d.
Proof.
  induction l as [|x l IH]; intros Hin Hd Hbefore; [contradiction|].
  simpl in *. destruct (String.eqb_spec x d) as [->|N].
  - now rewrite Hd.
  - rewrite (Hbefore x (or_introl eq_refl)).
    apply IH; [tauto | exact Hd | intros d' H'; apply Hbefore; now right].
Qed.

Lemma find_none (f : string -> bool) (l : list string) :
  (forall d, In d l -> f d = false) -> find f l = None.
Proof.
  induction l as [|x l IH]; intros H; simpl; [reflexivity|].
  rewrite (H x (or_introl eq_refl)). apply IH. intros d Hd. apply H. now right.
Qed.

Lemma take_length (n : nat) (s : string) : String.length (take n s) <= n.
Proof.
  unfold take. revert s. induction n as [|n IH]; intros [|c s]; simpl; try lia.
  specialize (IH s). lia.
Qed.

Lemma append_length (s t : string) :
  String.length (s ++ t) = String.length s + String.length t.
Proof. induction s as [|c s IH]; simpl; [reflexivity | now rewrite IH]. Qed.

Lemma displayed_raw_bounded (full_desc : string) :
  String.length (displayed_raw full_desc) <= 203.
Proof.
  unfold displayed_raw. destruct (Nat.ltb_spec 200 (String.length full_desc)).
  - rewrite append_length. pose proof (take_length 200 full_desc). simpl. lia.
  - lia.
Qed.

Section Answering.

Context {ext : Externals}.

(** *** Directional predicates at an exact zero *)

(** C2 (amended): an instance whose mean longitudinal offset is exactly zero
    satisfies neither the "ahead" nor the "behind" predicate, and one whose
    mean lateral offset is exactly zero satisfies neither "left" nor "right":
    the predicates looked up by [query_exist] and [query_count] are strict on
    both sides. *)
Theorem zero_mean_in_no_bucket (inst : InstanceFrame) :
  (PrimFloat.eqb (np_mean (map snd (locations inst))) 0 = true ->
   is_ahead inst = false /\ is_behind inst = false /\
   holds "ahead" inst = Ok false /\ holds "behind" inst = Ok false)
  /\
  (PrimFloat.eqb (np_mean (map fst (locations inst))) 0 = true ->
   is_left inst = false /\ is_right inst = false /\
   holds "left" inst = Ok false /\ holds "right" inst = Ok false).
Proof.
  split; intros Z.
  - assert (A : is_ahead inst = false)
      by (apply FloatOrder.eqb_zero_not_gt, Z).
    assert (B : is_behind inst = false)
      by (apply FloatOrder.eqb_not_ltb, Z).
    unfold holds. simpl. now rewrite A, B.
  - assert (A : is_left inst = false)
      by (apply FloatOrder.eqb_not_ltb, Z).
    assert (B : is_right inst = false)
      by (apply FloatOrder.eqb_zero_not_gt, Z).
    unfold holds. simpl. now rewrite A, B.
Qed.

(** *** The branches of [answer] *)

Lemma answer_exist (sf : SceneFrame) (question : string) :
  routes_to_exist (lower question) = true ->
  answer sf question =
    (obj <- object_after "is there a " (lower question) ;;
     b <- query_exist sf obj
            (or_default (keyword_in (lower question)) "ahead") ;;
     Ok (AText (if b then "Yes" else "No"))).
Proof.
  unfold routes_to_exist, answer. intros R.
  destruct (contains "passenger" (lower question)); [discriminate|].
  destruct (contains "is there" (lower question)); [|discriminate].
  reflexivity.
Qed.

Lemma answer_count (sf : SceneFrame) (question : string) :
  routes_to_count (lower question) = true ->
  answer sf question =
    (obj <- object_after "how many " (lower question) ;;
     n <- query_count sf obj (keyword_in (lower question)) ;;
     Ok (ACount n)).
Proof.
  unfold routes_to_count, answer. intros R.
  destruct (contains "passenger" (lower question)); [discriminate|].
  destruct (contains "is there" (lower question)); [discriminate|].
  destruct (contains "how many" (lower question)); [|discriminate].
  reflexivity.
Qed.

Lemma answer_closer (sf : SceneFrame) (question : string) :
  routes_to_closer (lower question) = true ->
  answer sf question =
    (let tokens :=
       split " or " (replace "which is closer, " "" (lower question)) in
     obj1 <- py_index tokens 0 ;;
     obj2 <- py_index tokens 1 ;;
     dist1 <- nearest_distance sf obj1 ;;
     dist2 <- nearest_distance sf obj2 ;;
     Ok (AText (if PrimFloat.ltb dist1 dist2 then obj1 else obj2))).
Proof.
  unfold routes_to_closer, answer. intros R.
  destruct (contains "passenger" (lower question)); [discriminate|].
  destruct (contains "is there" (lower question)); [discriminate|].
  destruct (contains "how many" (lower question)); [discriminate|].
  destruct (contains "what objects" (lower question)
            || contains "what is" (lower question)); [discriminate|].
  destruct (contains "which is closer" (lower question)); [|discriminate].
  reflexivity.
Qed.

(** A question that matches no pattern gets the fixed text. *)
Lemma answer_fallback (sf : SceneFrame) (question : string) :
  routes_to_fallback (lower question) = true ->
  answer sf question = Ok (AText "Question type not supported.").
Proof.
  unfold routes_to_fallback, answer. intros R.
  destruct (contains "passenger" (lower question)); [discriminate|].
  destruct (contains "is there" (lower question)); [discriminate|].
  destruct (contains "how many" (lower question)); [discriminate|].
  destruct (contains "what objects" (lower question)
            || contains "what is" (lower question)); [discriminate|].
  destruct (contains "which is closer" (lower question)); [discriminate|].
  destruct (contains "describe the scene" (lower question)); [discriminate|].
  reflexivity.
Qed.

(** *** Distances of the nearest-of-two comparison *)

Lemma nearest_distance_none (sf : SceneFrame) (obj : string) :
  matching sf obj = [] -> nearest_distance sf obj = Ok infinity.
Proof.
  intros E. unfold nearest_distance. fold (matching sf obj).
  now rewrite E.
Qed.

Lemma matching_in (sf : SceneFrame) (obj : string) (inst : InstanceFrame) :
  In inst (matching sf obj) <->
  In inst (instances sf) /\ contains obj (category_name inst) = true.
Proof. unfold matching. apply filter_In. Qed.

Lemma nearest_distance_spec (sf : SceneFrame) (obj : string) :
  exists dist,
    nearest_distance sf obj = Ok dist /\ is_side_distance sf obj dist.
Proof.
  unfold nearest_distance, is_side_distance. fold (matching sf obj).
  destruct (matching sf obj) as [|i l] eqn:M.
  - exists infinity. split; [reflexivity | left].
    split; [|reflexivity]. intros inst Hin.
    destruct (contains obj (category_name inst)) eqn:C; [|reflexivity].
    assert (H : In inst (matching sf obj)) by (apply matching_in; auto).
    rewrite M in H. contradiction.
  - set (ds := map mean_distance l).
    exists (py_min_from (mean_distance i) ds).
    split; [reflexivity | right].
    pose proof (py_min_from_in ds (mean_distance i)) as Hin.
    change (mean_distance i :: ds) with (map mean_distance (i :: l)) in Hin.
    apply in_map_iff in Hin. destruct Hin as (inst & E & Hinst).
    rewrite <- M in Hinst. apply matching_in in Hinst.
    exists inst. split; [tauto|]. split; [tauto|].
    split; [rewrite <- E; reflexivity|].
    intros other Ho Co.
    change (np_mean (map np_linalg_norm (locations other)))
      with (mean_distance other).
    apply py_min_from_lower.
    change (mean_distance i :: ds) with (map mean_distance (i :: l)).
    apply in_map. rewrite <- M. apply matching_in. auto.
Qed.

Lemma side_distance_uniform (sf : SceneFrame) (obj : string) (dist v : float) :
  is_side_distance sf obj dist ->
  (exists inst, In inst (instances sf) /\
                contains obj (category_name inst) = true) ->
  (forall inst, In inst (instances sf) ->
                contains obj (category_name inst) = true ->
                np_mean (map np_linalg_norm (locations inst)) = v) ->
  dist = v.
Proof.
  intros [[E _]|(inst & Hin & C & -> & _)] (i & Hi & Ci) H.
  - rewrite (E i Hi) in Ci. discriminate.
  - now apply H.
Qed.

(** *** Nearest of two *)

(** C3: in a "which is closer" question with terms [obj1] and [obj2], each
    side's distance is infinite when no instance's category contains the
    term and is otherwise the least, over the instances whose category
    contains the term, of the mean over the instance's locations of the
    Euclidean distance from the origin; [obj1] is returned exactly when its
    distance is strictly smaller.  So when the terms are "vehicle.bus" at
    mean distance 10 and "vehicle.truck" at mean distance 4, the truck term
    is returned. *)
Theorem nearest_of_two (sf : SceneFrame) (question obj1 obj2 : string)
  (rest : list string) :
  routes_to_closer (lower question) = true ->
  split " or " (replace "which is closer, " "" (lower question))
    = obj1 :: obj2 :: rest ->
  exists dist1 dist2,
    nearest_distance sf obj1 = Ok dist1 /\
    nearest_distance sf obj2 = Ok dist2 /\
    is_side_distance sf obj1 dist1 /\
    is_side_distance sf obj2 dist2 /\
    answer sf question
      = Ok (AText (if PrimFloat.ltb dist1 dist2 then obj1 else obj2)) /\
    (obj1 = "vehicle.bus" -> obj2 = "vehicle.truck" ->
     (exists inst, In inst (instances sf) /\
                   contains obj1 (category_name inst) = true) ->
     (exists inst, In inst (instances sf) /\
                   contains obj2 (category_name inst) = true) ->
     (forall inst, In inst (instances sf) ->
                   contains obj1 (category_name inst) = true ->
                   np_mean (map np_linalg_norm (locations inst))
                   = 10%float) ->
     (forall inst, In inst (instances sf) ->
                   contains obj2 (category_name inst) = true ->
                   np_mean (map np_linalg_norm (locations inst))
                   = 4%float) ->
     answer sf question = Ok (AText "vehicle.truck")).
Proof.
  intros R T.
  destruct (nearest_distance_spec sf obj1) as (dist1 & N1 & S1).
  destruct (nearest_distance_spec sf obj2) as (dist2 & N2 & S2).
  assert (A : answer sf question
              = Ok (AText (if PrimFloat.ltb dist1 dist2 then obj1 else obj2))).
  { rewrite (answer_closer sf question R). cbv zeta. rewrite T.
    cbn [py_index nth_error bind]. rewrite N1, N2. reflexivity. }
  exists dist1, dist2.
  split; [exact N1|]. split; [exact N2|].
  split; [exact S1|]. split; [exact S2|]. split; [exact A|].
  intros E1 E2 M1 M2 H1 H2.
  rewrite (side_distance_uniform sf obj1 dist1 _ S1 M1 H1) in A.
  rewrite (side_distance_uniform sf obj2 dist2 _ S2 M2 H2) in A.
  rewrite A, E2. reflexivity.
Qed.

(** C10: in the "which is closer" branch the two distances, each the
    least mean distance over the instances matching its term (infinite when
    none matches), are computed without raising, and whenever the first is
    not strictly smaller than the second the second term is returned: in
    particular when the two distances are equal and when neither term
    matches any instance. *)
Theorem second_term_unless_strictly_closer (sf : SceneFrame)
  (question obj1 obj2 : string) (rest : list string) :
  routes_to_closer (lower question) = true ->
  split " or " (replace "which is closer, " "" (lower question))
    = obj1 :: obj2 :: rest ->
  exists dist1 dist2,
    nearest_distance sf obj1 = Ok dist1 /\
    nearest_distance sf obj2 = Ok dist2 /\
    is_side_distance sf obj1 dist1 /\
    is_side_distance sf obj2 dist2 /\
    (PrimFloat.ltb dist1 dist2 = false ->
     answer sf question = Ok (AText obj2)) /\
    (PrimFloat.eqb dist1 dist2 = true ->
     answer sf question = Ok (AText obj2)) /\
    (matching sf obj1 = [] -> matching sf obj2 = [] ->
     dist1 = infinity /\ dist2 = infinity /\
     answer sf question = Ok (AText obj2)).
Proof.
  intros R T.
  destruct (nearest_distance_spec sf obj1) as (dist1 & N1 & S1).
  destruct (nearest_distance_spec sf obj2) as (dist2 & N2 & S2).
  assert (A : PrimFloat.ltb dist1 dist2 = false ->
              answer sf question = Ok (AText obj2)).
  { intros L. rewrite (answer_closer sf question R). cbv zeta. rewrite T.
    cbn [py_index nth_error bind]. rewrite N1, N2. cbn [bind].
    now rewrite L. }
  exists dist1, dist2. split; [exact N1|]. split; [exact N2|].
  split; [exact S1|]. split; [exact S2|].
  split; [exact A|]. split.
  - intros E. apply A. now apply FloatOrder.eqb_not_ltb.
  - intros M1 M2.
    rewrite (nearest_distance_none sf obj1 M1) in N1.
    rewrite (nearest_distance_none sf obj2 M2) in N2.
    injection N1 as <-. injection N2 as <-.
    split; [reflexivity|]. split; [reflexivity|]. now apply A.
Qed.

(** *** Direction keywords *)

(** C7: when none of ahead, behind, left and right occurs in the question,
    the "is there" branch calls [query_exist] with direction "ahead", and the
    "how many" branch calls [query_count] with no direction filter. *)
Theorem direction_default (sf : SceneFrame) (question : string) :
  (forall d, In d direction_keywords ->
             contains d (lower question) = false) ->
  (routes_to_exist (lower question) = true ->
   answer sf question =
     (obj <- object_after "is there a " (lower question) ;;
      b <- query_exist sf obj "ahead" ;;
      Ok (AText (if b then "Yes" else "No"))))
  /\
  (routes_to_count (lower question) = true ->
   answer sf question =
     (obj <- object_after "how many " (lower question) ;;
      n <- query_count sf obj None ;;
      Ok (ACount n))).
Proof.
  intros H.
  assert (K : keyword_in (lower question) = None)
    by (apply find_none; exact H).
  split; intros R.
  - rewrite (answer_exist sf question R), K. reflexivity.
  - rewrite (answer_count sf question R), K. reflexivity.
Qed.

(** C9: the direction passed to [query_exist] or [query_count] is the first
    keyword, in the order ahead, behind, left, right, that occurs in the
    question; where the keywords stand in the text plays no part. *)
Theorem direction_priority (sf : SceneFrame) (question d : string) :
  In d direction_keywords ->
  contains d (lower question) = true ->
  (forall d', In d' (tried_before d direction_keywords) ->
              contains d' (lower question) = false) ->
  (routes_to_exist (lower question) = true ->
   answer sf question =
     (obj <- object_after "is there a " (lower question) ;;
      b <- query_exist sf obj d ;;
      Ok (AText (if b then "Yes" else "No"))))
  /\
  (routes_to_count (lower question) = true ->
   answer sf question =
     (obj <- object_after "how many " (lower question) ;;
      n <- query_count sf obj (Some d) ;;
      Ok (ACount n))).
Proof.
  intros Hd Hc Hb.
  assert (K : keyword_in (lower question) = Some d)
    by (apply find_priority; assumption).
  split; intros R.
  - rewrite (answer_exist sf question R), K. reflexivity.
  - rewrite (answer_count sf question R), K. reflexivity.
Qed.

(** *** Malformed questions *)

(** C1 (the code departs from the claim): a question that contains
    "which is closer" but no " or " separator makes [answer] raise
    [IndexError], whatever the scene is. *)
Theorem answer_raises_without_separator (sf : SceneFrame) :
  answer sf "Which is closer bus" = Raise IndexError.
Proof. reflexivity. Qed.

(** The same happens when nothing follows "is there a " or "how many ". *)
Lemma answer_raises_without_object (sf : SceneFrame) :
  answer sf "Is there a " = Raise IndexError
  /\ answer sf "How many " = Raise IndexError.
Proof. split; reflexivity. Qed.

(** These are the only failures: every other question gets an answer, and
    neither the attribute lookup nor [min] can raise inside [answer]. *)
Lemma answer_returns_or_index_error (sf : SceneFrame) (question : string) :
  (exists v, answer sf question = Ok v)
  \/ answer sf question = Raise IndexError.
Proof.
  assert (K : forall d, keyword_in (lower question) = Some d ->
                        In d direction_keywords).
  { intros d E. apply find_some in E. tauto. }
  unfold answer.
  destruct (contains "passenger" (lower question)); [left; eauto|].
  destruct (contains "is there" (lower question)).
  { unfold object_after, py_index.
    destruct (nth_error _ 0) as [obj|]; [|now right].
    cbn [bind]. left.
    assert (D : In (or_default (keyword_in (lower question)) "ahead")
                   direction_keywords).
    { destruct (keyword_in (lower question)) as [d|] eqn:E;
        [now apply K | now left]. }
    destruct (query_exist_returns sf obj _ D) as (b & Q).
    rewrite Q. cbn [bind]. eauto. }
  destruct (contains "how many" (lower question)).
  { unfold object_after, py_index.
    destruct (nth_error _ 0) as [obj|]; [|now right].
    cbn [bind]. left.
    destruct (keyword_in (lower question)) as [d|] eqn:E.
    - destruct (query_count_returns sf obj d (K d eq_refl)) as (n & Q).
      rewrite Q. cbn [bind]. eauto.
    - rewrite query_count_unfiltered. cbn [bind]. eauto. }
  destruct (contains "what objects" (lower question)
            || contains "what is" (lower question)); [left; eauto|].
  destruct (contains "which is closer" (lower question)).
  { cbv zeta. unfold py_index.
    destruct (nth_error _ 0) as [obj1|]; [|now right].
    destruct (nth_error _ 1) as [obj2|]; [|now right].
    cbn [bind]. left.
    destruct (nearest_distance_spec sf obj1) as (d1 & -> & _).
    destruct (nearest_distance_spec sf obj2) as (d2 & -> & _).
    cbn [bind]. eauto. }
  destruct (contains "describe the scene" (lower question)); left; eauto.
Qed.

(** *** Quick scene summary *)

(** C6 (amended): when the call to the LLM client fails,
    [quick_scene_summary] returns the fixed text "Scene summary unavailable
    (GPT error)." and nothing is raised; the raw summary, cut to its first
    200 characters followed by "..." when it is longer (so at most 203
    characters), is what is returned when no client is in use. *)
Theorem summary_on_client_failure (sf : SceneFrame)
  (client : string -> client_outcome) :
  client (gpt_prompt (summarize_scene sf)) = Failed ->
  quick_scene_summary true client sf
    = "Scene summary unavailable (GPT error)."
  /\ quick_scene_summary false client sf
     = displayed_raw (summarize_scene sf)
  /\ String.length (quick_scene_summary false client sf) <= 203.
Proof.
  intros F. unfold quick_scene_summary. rewrite F.
  split; [reflexivity|]. split; [reflexivity|].
  apply displayed_raw_bounded.
Qed.

End Answering.

(** ** The properties on the sample scenes *)

Module Samples.

Import Reference.

#[local] Existing Instance externals.

(** A question lists "behind" before "ahead": "ahead" is used, and the bus,
    which is ahead, is found. *)
Example ahead_wins_over_earlier_behind :
  keyword_in (lower "Is there a bus behind or ahead?") = Some "ahead"
  /\ answer bus_truck_scene "Is there a bus behind or ahead?"
     = Ok (AText "Yes")
  /\ query_exist bus_truck_scene "bus" "behind" = Ok false.
Proof. repeat split. Qed.

(** The prepared question of the application keeps its question mark in the
    second term, which then matches no category. *)
Example prepared_closer_question :
  answer bus_truck_scene "Which is closer, bus or truck?" = Ok (AText "bus")
  /\ answer bus_truck_scene "Which is closer, bus or truck"
     = Ok (AText "truck").
Proof. split; reflexivity. Qed.

Example unsupported_question :
  answer bus_truck_scene "What color is the sky?"
  = Ok (AText "Question type not supported.").
Proof. reflexivity. Qed.

End Samples.

Lemma query_exist_iff_count_positive_witness :
  In "ahead" direction_keywords /\
  exists b n,
    @query_exist Reference.externals Reference.bus_truck_scene "bus" "ahead"
      = Ok b /\
    @query_count Reference.externals Reference.bus_truck_scene "bus"
      (Some "ahead") = Ok n /\
    (b = true <-> 0 < n).
Proof.
  split; [simpl; auto|].
  apply (@query_exist_iff_count_positive Reference.externals
           Reference.bus_truck_scene "bus" "ahead").
  simpl; auto.
Defined.

Lemma query_count_unfiltered_dominates_witness :
  In "left" direction_keywords /\
  exists total filtered,
    @query_count Reference.externals Reference.bus_truck_scene "vehicle" None
      = Ok total /\
    @query_count Reference.externals Reference.bus_truck_scene "vehicle"
      (Some "left") = Ok filtered /\
    filtered <= total.
Proof.
  split; [simpl; auto|].
  apply (@query_count_unfiltered_dominates Reference.externals
           Reference.bus_truck_scene "vehicle" "left").
  simpl; auto.
Defined.

Lemma query_count_no_match_witness :
  (forall inst, In inst (instances Reference.bus_truck_scene) ->
                contains "pedestrian" (category_name inst) = false) /\
  @query_count Reference.externals Reference.bus_truck_scene "pedestrian"
    (Some "left") = Ok 0.
Proof.
  assert (H : forall inst, In inst (instances Reference.bus_truck_scene) ->
                contains "pedestrian" (category_name inst) = false)
    by (intros inst [<-|[<-|[]]]; reflexivity).
  split; [exact H|].
  exact (@query_count_no_match Reference.externals Reference.bus_truck_scene
           "pedestrian" (Some "left") H).
Defined.

(** C2 (as stated, refuted): the car that stays at the ego position has a
    mean longitudinal and a mean lateral offset of exactly zero, yet it
    satisfies neither the "behind" nor the "right" predicate, and
    [query_exist] and [query_count] do not find it behind or to the right. *)
Lemma zero_mean_not_behind_nor_right :
  PrimFloat.eqb
    (@np_mean Reference.externals
       (map snd (locations Reference.level_car))) 0 = true
  /\ @is_behind Reference.externals Reference.level_car = false
  /\ PrimFloat.eqb
       (@np_mean Reference.externals
          (map fst (locations Reference.level_car))) 0 = true
  /\ @is_right Reference.externals Reference.level_car = false
  /\ @query_exist Reference.externals Reference.level_scene "car" "behind"
     = Ok false
  /\ @query_count Reference.externals Reference.level_scene "car"
       (Some "right") = Ok 0.
Proof. repeat split. Qed.

Lemma zero_mean_in_no_bucket_witness :
  PrimFloat.eqb
    (@np_mean Reference.externals
       (map snd (locations Reference.level_car))) 0 = true
  /\ PrimFloat.eqb
       (@np_mean Reference.externals
          (map fst (locations Reference.level_car))) 0 = true
  /\ (@is_ahead Reference.externals Reference.level_car = false /\
      @is_behind Reference.externals Reference.level_car = false /\
      @holds Reference.externals "ahead" Reference.level_car = Ok false /\
      @holds Reference.externals "behind" Reference.level_car = Ok false)
  /\ (@is_left Reference.externals Reference.level_car = false /\
      @is_right Reference.externals Reference.level_car = false /\
      @holds Reference.externals "left" Reference.level_car = Ok false /\
      @holds Reference.externals "right" Reference.level_car = Ok false).
Proof.
  split; [reflexivity|]. split; [reflexivity|].
  destruct (@zero_mean_in_no_bucket Reference.externals Reference.level_car)
    as [Y X].
  split; [apply Y | apply X]; reflexivity.
Defined.

Lemma nearest_of_two_witness :
  routes_to_closer
    (lower "Which is closer, vehicle.bus or vehicle.truck") = true
  /\ split " or "
       (replace "which is closer, " ""
          (lower "Which is closer, vehicle.bus or vehicle.truck"))
     = ["vehicle.bus"; "vehicle.truck"]
  /\ @np_mean Reference.externals
       (map (@np_linalg_norm Reference.externals)
            (locations Reference.bus)) = 10%float
  /\ @np_mean Reference.externals
       (map (@np_linalg_norm Reference.externals)
            (locations Reference.truck)) = 4%float
  /\ @answer Reference.externals Reference.bus_truck_scene
       "Which is closer, vehicle.bus or vehicle.truck"
     = Ok (AText "vehicle.truck").
Proof.
  split; [reflexivity|]. split; [reflexivity|].
  split; [reflexivity|]. split; [reflexivity|].
  destruct (@nearest_of_two Reference.externals Reference.bus_truck_scene
              "Which is closer, vehicle.bus or vehicle.truck"
              "vehicle.bus" "vehicle.truck" [] eq_refl eq_refl)
    as (dist1 & dist2 & _ & _ & _ & _ & _ & Scenario).
  apply Scenario.
  - reflexivity.
  - reflexivity.
  - exists Reference.bus. split; [simpl; auto | reflexivity].
  - exists Reference.truck. split; [simpl; auto | reflexivity].
  - intros inst [<-|[<-|[]]] C; [reflexivity | discriminate C].
  - intros inst [<-|[<-|[]]] C; [discriminate C | reflexivity].
Defined.

Lemma second_term_unless_strictly_closer_witness :
  routes_to_closer (lower "Which is closer, bus or truck") = true
  /\ split " or "
       (replace "which is closer, " "" (lower "Which is closer, bus or truck"))
     = ["bus"; "truck"]
  /\ @answer Reference.externals Reference.level_scene
       "Which is closer, bus or truck" = Ok (AText "truck").
Proof.
  split; [reflexivity|]. split; [reflexivity|].
  destruct (@second_term_unless_strictly_closer Reference.externals
              Reference.level_scene "Which is closer, bus or truck"
              "bus" "truck" [] eq_refl eq_refl)
    as (dist1 & dist2 & _ & _ & _ & _ & _ & _ & Neither).
  apply Neither; reflexivity.
Defined.

Lemma direction_default_witness :
  (forall d, In d direction_keywords ->
             contains d (lower "Is there a bus?") = false)
  /\ routes_to_exist (lower "Is there a bus?") = true
  /\ @answer Reference.externals Reference.bus_truck_scene "Is there a bus?"
     = (obj <- object_after "is there a " (lower "Is there a bus?") ;;
        b <- @query_exist Reference.externals Reference.bus_truck_scene
               obj "ahead" ;;
        Ok (AText (if b then "Yes" else "No"))).
Proof.
  assert (H : forall d, In d direction_keywords ->
                        contains d (lower "Is there a bus?") = false)
    by (intros d [<-|[<-|[<-|[<-|[]]]]]; reflexivity).
  split; [exact H|]. split; [reflexivity|].
  exact (proj1 (@direction_default Reference.externals
                  Reference.bus_truck_scene "Is there a bus?" H) eq_refl).
Defined.

Lemma direction_priority_witness :
  In "left" direction_keywords
  /\ contains "left" (lower "How many vehicle right or left?") = true
  /\ (forall d', In d' (tried_before "left" direction_keywords) ->
        contains d' (lower "How many vehicle right or left?") = false)
  /\ routes_to_count (lower "How many vehicle right or left?") = true
  /\ @answer Reference.externals Reference.bus_truck_scene
       "How many vehicle right or left?"
     = (obj <- object_after "how many "
                 (lower "How many vehicle right or left?") ;;
        n <- @query_count Reference.externals Reference.bus_truck_scene
               obj (Some "left") ;;
        Ok (ACount n)).
Proof.
  assert (H : forall d', In d' (tried_before "left" direction_keywords) ->
            contains d' (lower "How many vehicle right or left?") = false)
    by (intros d' [<-|[<-|[]]]; reflexivity).
  split; [simpl; auto|]. split; [reflexivity|]. split; [exact H|].
  split; [reflexivity|].
  refine (proj2 (@direction_priority Reference.externals
                   Reference.bus_truck_scene
                   "How many vehicle right or left?" "left" _ eq_refl H)
            eq_refl).
  simpl; auto.
Defined.

(** C6 (as stated, refuted): with a client whose call fails, the summary
    shown is the fixed error text, which is not the raw summary of the
    scene, truncated or not. *)
Lemma failed_client_hides_raw_summary :
  Reference.failing_client
    (gpt_prompt (@summarize_scene Reference.externals
                   Reference.bus_truck_scene)) = Failed
  /\ @quick_scene_summary Reference.externals true Reference.failing_client
       Reference.bus_truck_scene
     <> displayed_raw
          (@summarize_scene Reference.externals Reference.bus_truck_scene)
  /\ @quick_scene_summary Reference.externals true Reference.failing_client
       Reference.bus_truck_scene
     = "Scene summary unavailable (GPT error).".
Proof.
  split; [reflexivity|]. split; [|reflexivity].
  vm_compute. discriminate.
Qed.

Lemma summary_on_client_failure_witness :
  Reference.failing_client
    (gpt_prompt (@summarize_scene Reference.externals
                   Reference.bus_truck_scene)) = Failed
  /\ (@quick_scene_summary Reference.externals true Reference.failing_client
        Reference.bus_truck_scene
      = "Scene summary unavailable (GPT error)."
      /\ @quick_scene_summary Reference.externals false
           Reference.failing_client Reference.bus_truck_scene
         = displayed_raw
             (@summarize_scene Reference.externals Reference.bus_truck_scene)
      /\ String.length
           (@quick_scene_summary Reference.externals false
              Reference.failing_client Reference.bus_truck_scene) <= 203).
Proof.
  split; [reflexivity|].
  apply (@summary_on_client_failure Reference.externals
           Reference.bus_truck_scene Reference.failing_client).
  reflexivity.
Defined.

(** ** Further properties of the queries *)

Lemma filter_exclusive_length {A : Type} (p q : A -> bool) (l : list A) :
  (forall x, p x = true -> q x = false) ->
  List.length (filter p l) + List.length (filter q l) <= List.length l.
Proof.
  intros E. induction l as [|x l IH]; simpl; [lia|].
  destruct (p x) eqn:P.
  - rewrite (E x P). simpl. lia.
  - destruct (q x); simpl; lia.
Qed.

Lemma filter_implied_length {A : Type} (p q : A -> bool) (l : list A) :
  (forall x, p x = true -> q x = true) ->
  List.length (filter p l) <= List.length (filter q l).
Proof.
  intros E. induction l as [|x l IH]; simpl; [lia|].
  destruct (p x) eqn:P.
  - rewrite (E x P). simpl. lia.
  - destruct (q x); simpl; lia.
Qed.

Lemma filter_filter_comm {A : Type} (p q : A -> bool) (l : list A) :
  filter p (filter q l) = filter q (filter p l).
Proof.
  induction l as [|x l IH]; simpl; [reflexivity|].
  destruct (q x) eqn:Q, (p x) eqn:P; simpl; rewrite ?Q, ?P, IH; reflexivity.
Qed.

Lemma filter_permutation {A : Type} (p : A -> bool) (l l' : list A) :
  Permutation l l' -> Permutation (filter p l) (filter p l').
Proof.
  induction 1 as [|x l l' _ IH|x y l|l l' l'' _ IH1 _ IH2]; simpl.
  - constructor.
  - destruct (p x); [now constructor | exact IH].
  - destruct (p x), (p y); try apply Permutation_refl. apply perm_swap.
  - now apply perm_trans with (filter p l').
Qed.

Lemma existsb_permutation {A : Type} (p : A -> bool) (l l' : list A) :
  Permutation l l' -> existsb p l = existsb p l'.
Proof.
  induction 1 as [|x l l' _ IH|x y l|l l' l'' _ IH1 _ IH2]; simpl.
  - reflexivity.
  - now rewrite IH.
  - now destruct (p x), (p y).
  - congruence.
Qed.

Lemma contains_trans (a b c : string) :
  contains a b = true -> contains b c = true -> contains a c = true.
Proof.
  rewrite !PyStrFacts.contains_iff.
  intros (u & v & ->) (x & y & ->).
  exists (x ++ u)%string, (v ++ y)%string.
  assert (Assoc : forall s t r : string,
            ((s ++ t) ++ r = s ++ t ++ r)%string).
  { intros s t r. induction s as [|ch s IH]; simpl; [reflexivity|].
    now rewrite IH. }
  now rewrite !Assoc.
Qed.

Section MoreQueries.

Context {ext : Externals}.

Lemma ahead_excludes_behind (inst : InstanceFrame) :
  is_ahead inst = true -> is_behind inst = false.
Proof.
  unfold is_ahead, is_behind. intros A.
  destruct (PrimFloat.ltb (np_mean (map snd (locations inst))) 0) eqn:B;
    [|reflexivity].
  pose proof (FloatOrder.ltb_trans _ _ _ A B) as C.
  now rewrite FloatOrder.ltb_irrefl in C.
Qed.

Lemma left_excludes_right (inst : InstanceFrame) :
  is_left inst = true -> is_right inst = false.
Proof.
  unfold is_left, is_right. intros A.
  destruct (PrimFloat.ltb 0 (np_mean (map fst (locations inst)))) eqn:B;
    [|reflexivity].
  pose proof (FloatOrder.ltb_trans _ _ _ B A) as C.
  now rewrite FloatOrder.ltb_irrefl in C.
Qed.

Lemma query_count_keyword (sf : SceneFrame) (c d : string) p :
  getattr_is d = Ok p -> In d direction_keywords ->
  query_count sf c (Some d) = Ok (List.length (filter p (matching sf c))).
Proof.
  intros G Hd. destruct (keyword_nonempty d Hd) as (a & d' & ->).
  apply query_count_resolved; [exact G | discriminate].
Qed.

(** X1: no instance is counted both ahead and behind, nor both left and
    right: the two opposite directional counts together never exceed the
    unfiltered count. *)
Theorem opposite_counts_within_total (sf : SceneFrame) (c : string) :
  exists ahead behind left right total,
    query_count sf c (Some "ahead") = Ok ahead /\
    query_count sf c (Some "behind") = Ok behind /\
    query_count sf c (Some "left") = Ok left /\
    query_count sf c (Some "right") = Ok right /\
    query_count sf c None = Ok total /\
    ahead + behind <= total /\ left + right <= total.
Proof.
  exists (List.length (filter is_ahead (matching sf c))),
         (List.length (filter is_behind (matching sf c))),
         (List.length (filter is_left (matching sf c))),
         (List.length (filter is_right (matching sf c))),
         (List.length (matching sf c)).
  split; [apply query_count_keyword; simpl; auto|].
  split; [apply query_count_keyword; simpl; auto|].
  split; [apply query_count_keyword; simpl; auto|].
  split; [apply query_count_keyword; simpl; auto|].
  split; [apply query_count_unfiltered|].
  split.
  - apply filter_exclusive_length, ahead_excludes_behind.
  - apply filter_exclusive_length, left_excludes_right.
Qed.

Lemma getattr_unknown (d : string) :
  ~ In d direction_keywords ->
  getattr_is d = Raise (AttributeError ("is_" ++ d)).
Proof.
  intros N. unfold getattr_is.
  destruct (String.eqb_spec d "ahead") as [->|_];
    [exfalso; apply N; simpl; auto|].
  destruct (String.eqb_spec d "behind") as [->|_];
    [exfalso; apply N; simpl; auto|].
  destruct (String.eqb_spec d "left") as [->|_];
    [exfalso; apply N; simpl; auto|].
  destruct (String.eqb_spec d "right") as [->|_];
    [exfalso; apply N; simpl; auto|].
  reflexivity.
Qed.

Lemma query_exist_unknown (sf : SceneFrame) (c d : string) :
  ~ In d direction_keywords ->
  query_exist sf c d
  = match matching sf c with
    | [] => Ok false
    | _ :: _ => Raise (AttributeError ("is_" ++ d))
    end.
Proof.
  intros N. unfold query_exist, matching, holds.
  rewrite (getattr_unknown d N).
  induction (instances sf) as [|i l IH]; simpl; [reflexivity|].
  destruct (contains c (category_name i)); simpl; [reflexivity | exact IH].
Qed.

(** X2: a direction that is not one of the four keywords makes
    [query_exist] raise [AttributeError] as soon as one instance matches the
    category, and gives [False] when none does; [query_count] does the same
    (with 0 for no match), except that the empty string counts as no
    filter. *)
Theorem unknown_direction (sf : SceneFrame) (c d : string) :
  ~ In d direction_keywords ->
  query_exist sf c d
  = match matching sf c with
    | [] => Ok false
    | _ :: _ => Raise (AttributeError ("is_" ++ d))
    end
  /\ query_count sf c (Some d)
     = match d, matching sf c with
       | EmptyString, objs => Ok (List.length objs)
       | _, [] => Ok 0
       | _, _ :: _ => Raise (AttributeError ("is_" ++ d))
       end.
Proof.
  intros N. split; [now apply query_exist_unknown|].
  unfold query_count. fold (matching sf c).
  destruct d as [|a d]; [reflexivity|].
  destruct (matching sf c) as [|i l]; [reflexivity|].
  cbn [py_filter]. unfold holds at 1. rewrite (getattr_unknown _ N).
  reflexivity.
Qed.

(** X3: the two queries do not depend on the order of the instances, which
    comes from the iteration over a [set]. *)
Theorem queries_ignore_instance_order (sf sf' : SceneFrame) (c d : string) :
  Permutation (instances sf) (instances sf') ->
  In d direction_keywords ->
  query_exist sf c d = query_exist sf' c d
  /\ query_count sf c (Some d) = query_count sf' c (Some d)
  /\ query_count sf c None = query_count sf' c None.
Proof.
  intros P Hd. destruct (getattr_keyword d Hd) as [p G].
  assert (M : Permutation (matching sf c) (matching sf' c))
    by (apply filter_permutation, P).
  rewrite !(query_exist_resolved _ c d p G).
  rewrite !(query_count_keyword _ c d p G Hd).
  rewrite !query_count_unfiltered.
  rewrite (existsb_permutation p _ _ M).
  rewrite (Permutation_length (filter_permutation p _ _ M)).
  rewrite (Permutation_length M).
  repeat split.
Qed.

(** X4: a term that is contained in another one matches at least the same
    instances: the longer term never counts more, with or without a
    direction, and what exists for the longer term exists for the shorter
    one. *)
Theorem broader_term_matches_more (sf : SceneFrame) (short long d : string) :
  contains short long = true ->
  In d direction_keywords ->
  exists n_short n_long m_short m_long b_short b_long,
    query_count sf short None = Ok n_short /\
    query_count sf long None = Ok n_long /\ n_long <= n_short /\
    query_count sf short (Some d) = Ok m_short /\
    query_count sf long (Some d) = Ok m_long /\ m_long <= m_short /\
    query_exist sf short d = Ok b_short /\
    query_exist sf long d = Ok b_long /\
    (b_long = true -> b_short = true).
Proof.
  intros S Hd. destruct (getattr_keyword d Hd) as [p G].
  assert (I : forall inst,
            contains long (category_name inst) = true ->
            contains short (category_name inst) = true)
    by (intros inst; apply contains_trans, S).
  exists (List.length (matching sf short)), (List.length (matching sf long)),
         (List.length (filter p (matching sf short))),
         (List.length (filter p (matching sf long))),
         (existsb p (matching sf short)), (existsb p (matching sf long)).
  split; [apply query_count_unfiltered|].
  split; [apply query_count_unfiltered|].
  split; [now apply filter_implied_length|].
  split; [now apply query_count_keyword|].
  split; [now apply query_count_keyword|].
  split.
  { unfold matching. rewrite !(filter_filter_comm p).
    now apply filter_implied_length. }
  split; [now apply query_exist_resolved|].
  split; [now apply query_exist_resolved|].
  rewrite !existsb_exists. intros (inst & Hin & Hp).
  exists inst. split; [|exact Hp].
  unfold matching in *. rewrite filter_In in *.
  split; [tauto | apply I; tauto].
Qed.

End MoreQueries.

(** ** Further properties of the router *)

Lemma split_ws_nil_iff (s : string) : split_ws s = [] <-> blank s = true.
Proof.
  unfold split_ws. induction s as [|c s IH]; simpl.
  - tauto.
  - destruct (words_from s) as [w ws]. destruct (is_space c); simpl.
    + destruct w; exact IH.
    + split; discriminate.
Qed.

Lemma blank_app (s t : string) :
  blank (s ++ t) = blank s && blank t.
Proof.
  induction s as [|c s IH]; simpl; [reflexivity|].
  now rewrite IH, andb_assoc.
Qed.

Lemma split_from_no_separator (sep s : string) :
  sep <> EmptyString ->
  contains sep s = false -> split_from sep 0 s = (s, []).
Proof.
  intros N. induction s as [|c s IH]; intros C; [reflexivity|].
  rewrite PyStrFacts.contains_unfold in C. cbn [split_from].
  destruct (prefix sep (String c s)); [discriminate|].
  now rewrite (IH C).
Qed.

Lemma split_from_separator (sep s : string) :
  sep <> EmptyString ->
  contains sep s = true -> snd (split_from sep 0 s) <> [].
Proof.
  intros N. induction s as [|c s IH]; intros C.
  - rewrite PyStrFacts.contains_unfold in C.
    destruct sep; [congruence | simpl in C; discriminate].
  - rewrite PyStrFacts.contains_unfold in C. cbn [split_from].
    destruct (prefix sep (String c s)).
    + cbn [snd]. now destruct (split_from sep (String.length sep - 1) s).
    + specialize (IH C). now destruct (split_from sep 0 s).
Qed.

(** [s.split(sep)] has a second element exactly when [sep] occurs in [s]. *)
Lemma split_second (sep s : string) :
  sep <> EmptyString ->
  py_index (split sep s) 1
  = (if contains sep s
     then match snd (split_from sep 0 s) with
          | x :: _ => Ok x
          | [] => Raise IndexError
          end
     else Raise IndexError)
  /\ (contains sep s = true -> exists x, py_index (split sep s) 1 = Ok x).
Proof.
  intros N. rewrite PyStrFacts.split_pieces. unfold pieces, py_index.
  cbn [nth_error]. destruct (contains sep s) eqn:C.
  - pose proof (split_from_separator sep s N C) as S.
    destruct (snd (split_from sep 0 s)) as [|x l]; [contradiction|].
    split; [reflexivity | eauto].
  - rewrite (split_from_no_separator sep s N C). cbn [snd nth_error].
    split; [reflexivity | discriminate].
Qed.

Lemma split_first (sep s : string) :
  exists x l, split sep s = x :: l.
Proof. unfold split. destruct (split_from sep 0 s). eauto. Qed.

Lemma lower_char_idempotent (c : ascii) :
  lower_char (lower_char c) = lower_char c.
Proof.
  destruct c as [[] [] [] [] [] [] [] []]; reflexivity.
Qed.

Lemma lower_idempotent (s : string) : lower (lower s) = lower s.
Proof.
  induction s as [|c s IH]; simpl; [reflexivity|].
  now rewrite lower_char_idempotent, IH.
Qed.

Lemma py_filter_length {A : Type} (f : A -> result bool) (l r : list A) :
  py_filter f l = Ok r -> List.length r <= List.length l.
Proof.
  revert r. induction l as [|x l IH]; intros r; simpl.
  - intros [= <-]. simpl. lia.
  - destruct (f x) as [b|e]; simpl; [|discriminate].
    destruct (py_filter f l) as [r'|e]; simpl; [|discriminate].
    intros [= <-]. specialize (IH r' eq_refl).
    destruct b; simpl; lia.
Qed.

Section MoreAnswering.

Context {ext : Externals}.

Lemma query_count_within_scene (sf : SceneFrame) (c : string)
  (direction : option string) (n : nat) :
  query_count sf c direction = Ok n -> n <= List.length (instances sf).
Proof.
  unfold query_count. fold (matching sf c).
  assert (M : List.length (matching sf c) <= List.length (instances sf))
    by apply filter_length_le.
  destruct direction as [[|a d]|].
  - intros [= <-]. exact M.
  - destruct (py_filter (holds (String a d)) (matching sf c)) as [r|e] eqn:F;
      simpl; [|discriminate].
    intros [= <-]. apply py_filter_length in F. lia.
  - intros [= <-]. exact M.
Qed.

Lemma keyword_in_keywords (q d : string) :
  keyword_in q = Some d -> In d direction_keywords.
Proof. intros E. apply find_some in E. tauto. Qed.

Lemma default_in_keywords (q : string) :
  In (or_default (keyword_in q) "ahead") direction_keywords.
Proof.
  destruct (keyword_in q) as [d|] eqn:E;
    [now apply keyword_in_keywords with q | now left].
Qed.

Lemma nearest_distance_returns (sf : SceneFrame) (obj : string) :
  exists dist, nearest_distance sf obj = Ok dist.
Proof.
  destruct (nearest_distance_spec sf obj) as (dist & E & _). eauto.
Qed.

(** X5: [answer] raises exactly in three situations, each time with
    [IndexError]: nothing but whitespace follows the last "is there a ",
    nothing but whitespace follows the last "how many ", or a "which is
    closer" question has no " or ".  Every other question gets an answer. *)
Theorem answer_raises_exactly (sf : SceneFrame) (question : string) :
  if question_unanswerable (lower question)
  then answer sf question = Raise IndexError
  else exists v, answer sf question = Ok v.
Proof.
  unfold question_unanswerable, routes_to_exist, routes_to_count,
    routes_to_closer, answer.
  destruct (contains "passenger" (lower question)); [simpl; eauto|].
  destruct (contains "is there" (lower question)).
  { cbn [negb andb orb]. rewrite !orb_false_r. unfold object_after, py_index.
    destruct (blank _) eqn:B.
    - apply split_ws_nil_iff in B. now rewrite B.
    - destruct (split_ws _) as [|obj l] eqn:S.
      + apply split_ws_nil_iff in S. congruence.
      + cbn [nth_error bind].
        destruct (query_exist_returns sf obj _
                    (default_in_keywords (lower question))) as [b Q].
        rewrite Q. cbn [bind]. eauto. }
  destruct (contains "how many" (lower question)).
  { cbn [negb andb orb]. rewrite !orb_false_r. unfold object_after, py_index.
    destruct (blank _) eqn:B.
    - apply split_ws_nil_iff in B. now rewrite B.
    - destruct (split_ws _) as [|obj l] eqn:S.
      + apply split_ws_nil_iff in S. congruence.
      + cbn [nth_error bind].
        destruct (keyword_in (lower question)) as [d|] eqn:K.
        * destruct (query_count_returns sf obj d
                      (keyword_in_keywords _ _ K)) as [n Q].
          rewrite Q. cbn [bind]. eauto.
        * rewrite query_count_unfiltered. cbn [bind]. eauto. }
  destruct (contains "what objects" (lower question)
            || contains "what is" (lower question)); [simpl; eauto|].
  destruct (contains "which is closer" (lower question)).
  { cbn [negb andb orb]. cbv zeta.
    destruct (split_first " or "
                (replace "which is closer, " "" (lower question)))
      as (obj1 & l & S).
    assert (N : " or " <> EmptyString) by discriminate.
    destruct (split_second " or "
                (replace "which is closer, " "" (lower question)) N)
      as [E2 R2].
    destruct (contains " or " _) eqn:C; cbn [negb].
    - destruct (R2 eq_refl) as [obj2 I2]. rewrite I2, S.
      cbn [py_index nth_error bind].
      destruct (nearest_distance_returns sf obj1) as [d1 ->].
      destruct (nearest_distance_returns sf obj2) as [d2 ->].
      cbn [bind]. eauto.
    - rewrite E2, S. reflexivity. }
  cbn [negb andb orb].
  destruct (contains "describe the scene" (lower question)); eauto.
Qed.

(** X6: [answer] is insensitive to the case of the question: the question
    and its lower-cased form get the same result. *)
Theorem answer_ignores_case (sf : SceneFrame) (question : string) :
  answer sf (lower question) = answer sf question.
Proof. unfold answer. now rewrite lower_idempotent. Qed.

(** X7: an integer answer comes only from the "how many" branch, and it
    never exceeds the number of instances of the scene. *)
Theorem count_answer_within_scene (sf : SceneFrame) (question : string)
  (n : nat) :
  answer sf question = Ok (ACount n) ->
  routes_to_count (lower question) = true
  /\ n <= List.length (instances sf).
Proof.
  unfold routes_to_count, answer.
  destruct (contains "passenger" (lower question)); [discriminate|].
  destruct (contains "is there" (lower question)).
  { destruct (object_after _ _); cbn [bind]; [|discriminate].
    destruct (query_exist _ _ _); cbn [bind]; discriminate. }
  destruct (contains "how many" (lower question)).
  { destruct (object_after _ _) as [obj|]; cbn [bind]; [|discriminate].
    destruct (query_count sf obj _) as [m|] eqn:Q; cbn [bind];
      [|discriminate].
    intros [= <-]. split; [reflexivity|].
    now apply query_count_within_scene in Q. }
  destruct (contains "what objects" (lower question)
            || contains "what is" (lower question)); [discriminate|].
  destruct (contains "which is closer" (lower question)).
  { cbv zeta. destruct (py_index _ 0); cbn [bind]; [|discriminate].
    destruct (py_index _ 1); cbn [bind]; [|discriminate].
    destruct (nearest_distance _ _); cbn [bind]; [|discriminate].
    destruct (nearest_distance _ _); cbn [bind]; discriminate. }
  destruct (contains "describe the scene" (lower question)); discriminate.
Qed.

End MoreAnswering.

Lemma ltb_asym (x y : float) :
  PrimFloat.ltb x y = true -> PrimFloat.ltb y x = false.
Proof.
  intros L. destruct (PrimFloat.ltb y x) eqn:G; [|reflexivity].
  pose proof (FloatOrder.ltb_trans _ _ _ L G) as C.
  now rewrite FloatOrder.ltb_irrefl in C.
Qed.

Lemma blank_contains (sub s : string) :
  contains sub s = true -> blank sub = false -> blank s = false.
Proof.
  rewrite PyStrFacts.contains_iff. intros (a & b & ->) B.
  rewrite !blank_app, B. now rewrite andb_false_r.
Qed.

Lemma take_prefix (n : nat) (s : string) : prefix (take n s) s = true.
Proof.
  unfold take. revert s. induction n as [|n IH]; intros [|c s]; simpl;
    try reflexivity.
  destruct (ascii_dec c c) as [_|N]; [apply IH | congruence].
Qed.

Lemma take_exact (n : nat) (s : string) :
  n <= String.length s -> String.length (take n s) = n.
Proof.
  unfold take. revert s. induction n as [|n IH]; intros [|c s]; simpl;
    intros L; try lia.
  rewrite IH; lia.
Qed.

Lemma join_app (sep : string) (l1 l2 : list string) :
  l1 <> [] -> l2 <> [] ->
  join sep (l1 ++ l2) = (join sep l1 ++ sep ++ join sep l2)%string.
Proof.
  intros N1 N2. unfold join.
  assert (Assoc : forall s t r : string,
            ((s ++ t) ++ r = s ++ t ++ r)%string).
  { intros s t r. induction s as [|ch s IH]; simpl; [reflexivity|].
    now rewrite IH. }
  induction l1 as [|x l1 IH]; [congruence|].
  destruct l1 as [|y l1].
  - destruct l2 as [|z l2]; [congruence|]. reflexivity.
  - change (concat sep ((x :: y :: l1) ++ l2))
      with (x ++ sep ++ concat sep ((y :: l1) ++ l2))%string.
    rewrite IH by discriminate.
    change (concat sep (x :: y :: l1))
      with (x ++ sep ++ concat sep (y :: l1))%string.
    now rewrite !Assoc.
Qed.

Section MoreBranches.

Context {ext : Externals}.

(** X8: when one of the two terms of a "which is closer" question is
    strictly closer than the other, it is the answer in whichever order the
    terms are given; when neither is strictly closer, each order returns its
    own second term. *)
Theorem closer_term_in_either_order (sf : SceneFrame)
  (question swapped a b : string) (rest rest' : list string)
  (dist_a dist_b : float) :
  routes_to_closer (lower question) = true ->
  routes_to_closer (lower swapped) = true ->
  split " or " (replace "which is closer, " "" (lower question))
    = a :: b :: rest ->
  split " or " (replace "which is closer, " "" (lower swapped))
    = b :: a :: rest' ->
  nearest_distance sf a = Ok dist_a ->
  nearest_distance sf b = Ok dist_b ->
  (PrimFloat.ltb dist_a dist_b = true ->
   answer sf question = Ok (AText a) /\ answer sf swapped = Ok (AText a))
  /\
  (PrimFloat.ltb dist_a dist_b = false ->
   PrimFloat.ltb dist_b dist_a = false ->
   answer sf question = Ok (AText b) /\ answer sf swapped = Ok (AText a)).
Proof.
  intros R R' T T' Da Db.
  rewrite (answer_closer sf question R), (answer_closer sf swapped R').
  cbv zeta. rewrite T, T'. cbn [py_index nth_error bind].
  rewrite Da, Db. cbn [bind].
  split.
  - intros L. now rewrite L, (ltb_asym _ _ L).
  - intros L L'. now rewrite L, L'.
Qed.

(** X9: each of the sample questions of the application is answered on
    every scene.  The object looked for is the word as typed: "bus",
    "pedestrians", and "truck?" with its question mark; "What objects are
    ahead?" lists every category, whatever the direction. *)
Theorem prebuilt_questions_answered (sf : SceneFrame) :
  Forall (fun question => exists v, answer sf question = Ok v)
    prebuilt_questions
  /\ (exists b,
        query_exist sf "bus" "ahead" = Ok b /\
        answer sf "Is there a bus ahead?"
        = Ok (AText (if b then "Yes" else "No")))
  /\ (exists n,
        query_count sf "pedestrians" (Some "left") = Ok n /\
        answer sf "How many pedestrians are to my left?" = Ok (ACount n))
  /\ answer sf "What objects are ahead?"
     = Ok (AText (join ", " (set_iter (map category_name (instances sf)))))
  /\ (exists dist1 dist2,
        nearest_distance sf "bus" = Ok dist1 /\
        nearest_distance sf "truck?" = Ok dist2 /\
        answer sf "Which is closer, bus or truck?"
        = Ok (AText (if PrimFloat.ltb dist1 dist2 then "bus" else "truck?")))
  /\ answer sf "Describe the scene" = Ok (AText (summarize_scene sf)).
Proof.
  destruct (query_exist_returns sf "bus" "ahead") as [b Qb];
    [simpl; auto|].
  destruct (query_count_returns sf "pedestrians" "left") as [n Qn];
    [simpl; auto|].
  destruct (nearest_distance_returns sf "bus") as [d1 N1].
  destruct (nearest_distance_returns sf "truck?") as [d2 N2].
  assert (A1 : answer sf "Is there a bus ahead?"
               = Ok (AText (if b then "Yes" else "No"))).
  { rewrite (answer_exist sf "Is there a bus ahead?" eq_refl).
    change (object_after "is there a " (lower "Is there a bus ahead?"))
      with (@Ok string "bus").
    change (or_default (keyword_in (lower "Is there a bus ahead?")) "ahead")
      with "ahead".
    cbn [bind]. now rewrite Qb. }
  assert (A2 : answer sf "How many pedestrians are to my left?"
               = Ok (ACount n)).
  { rewrite (answer_count sf "How many pedestrians are to my left?"
               eq_refl).
    change (object_after "how many "
              (lower "How many pedestrians are to my left?"))
      with (@Ok string "pedestrians").
    change (keyword_in (lower "How many pedestrians are to my left?"))
      with (Some "left").
    cbn [bind]. now rewrite Qn. }
  assert (A4 : answer sf "Which is closer, bus or truck?"
               = Ok (AText (if PrimFloat.ltb d1 d2
                            then "bus" else "truck?"))).
  { rewrite (answer_closer sf "Which is closer, bus or truck?" eq_refl).
    cbv zeta.
    change (split " or "
              (replace "which is closer, " ""
                 (lower "Which is closer, bus or truck?")))
      with ["bus"; "truck?"].
    cbn [py_index nth_error bind]. now rewrite N1, N2. }
  split.
  { unfold prebuilt_questions.
    repeat apply Forall_cons; try apply Forall_nil;
      [ eexists; exact A1 | eexists; exact A2 | eexists; reflexivity
      | eexists; exact A4 | eexists; reflexivity ]. }
  split; [eauto|]. split; [eauto|]. split; [reflexivity|].
  split; [eauto 6|]. reflexivity.
Qed.

(** X10: when a question contains "is there" but not "is there a ", the
    object looked for is the first word of the whole question, and
    likewise for "how many" without a following space; such a question
    never raises. *)
Theorem object_is_first_word_without_phrase (sf : SceneFrame)
  (question : string) :
  (routes_to_exist (lower question) = true ->
   contains "is there a " (lower question) = false ->
   exists word rest b,
     split_ws (lower question) = word :: rest /\
     query_exist sf word (or_default (keyword_in (lower question)) "ahead")
       = Ok b /\
     answer sf question = Ok (AText (if b then "Yes" else "No")))
  /\
  (routes_to_count (lower question) = true ->
   contains "how many " (lower question) = false ->
   exists word rest n,
     split_ws (lower question) = word :: rest /\
     query_count sf word (keyword_in (lower question)) = Ok n /\
     answer sf question = Ok (ACount n)).
Proof.
  split; intros R C.
  - assert (P : contains "is there" (lower question) = true).
    { unfold routes_to_exist in R.
      now destruct (contains "passenger" _), (contains "is there" _). }
    destruct (split_ws (lower question)) as [|word rest] eqn:S.
    { apply split_ws_nil_iff in S.
      now rewrite (blank_contains _ _ P eq_refl) in S. }
    destruct (query_exist_returns sf word _
                (default_in_keywords (lower question))) as [b Q].
    exists word, rest, b. split; [reflexivity|]. split; [exact Q|].
    assert (N : "is there a " <> EmptyString) by discriminate.
    rewrite (answer_exist sf question R). unfold object_after, split.
    rewrite (split_from_no_separator _ _ N C).
    cbn [last]. rewrite S. cbn [py_index nth_error bind]. now rewrite Q.
  - assert (P : contains "how many" (lower question) = true).
    { unfold routes_to_count in R.
      now destruct (contains "passenger" _), (contains "is there" _),
        (contains "how many" _). }
    destruct (split_ws (lower question)) as [|word rest] eqn:S.
    { apply split_ws_nil_iff in S.
      now rewrite (blank_contains _ _ P eq_refl) in S. }
    assert (Q : exists n,
              query_count sf word (keyword_in (lower question)) = Ok n).
    { destruct (keyword_in (lower question)) as [d|] eqn:K.
      - apply query_count_returns, (keyword_in_keywords _ _ K).
      - rewrite query_count_unfiltered. eauto. }
    destruct Q as [n Q].
    exists word, rest, n. split; [reflexivity|]. split; [exact Q|].
    assert (N : "how many " <> EmptyString) by discriminate.
    rewrite (answer_count sf question R). unfold object_after, split.
    rewrite (split_from_no_separator _ _ N C).
    cbn [last]. rewrite S. cbn [py_index nth_error bind]. now rewrite Q.
Qed.

(** X11: the summary of a scene made of two non-empty groups of instances
    is the two summaries joined by one space, and the summary of a scene
    without instances is empty. *)
Theorem summarize_scene_app (front back : list InstanceFrame) :
  summarize_scene {| instances := [] |} = EmptyString
  /\ (front <> [] -> back <> [] ->
      summarize_scene {| instances := front ++ back |}
      = (summarize_scene {| instances := front |} ++ " "
         ++ summarize_scene {| instances := back |})%string).
Proof.
  split; [reflexivity|]. intros F B. unfold summarize_scene. cbn [instances].
  rewrite map_app. apply join_app.
  - destruct front; [congruence | discriminate].
  - destruct back; [congruence | discriminate].
Qed.

(** X12: without a client, a raw summary of at most 200 characters is shown
    as it is; a longer one is shown as its first 200 characters followed by
    "...", 203 characters in all. *)
Theorem quick_summary_without_client (sf : SceneFrame)
  (client : string -> client_outcome) :
  (String.length (summarize_scene sf) <= 200 ->
   quick_scene_summary false client sf = summarize_scene sf)
  /\
  (200 < String.length (summarize_scene sf) ->
   exists head,
     quick_scene_summary false client sf = (head ++ "...")%string /\
     prefix head (summarize_scene sf) = true /\
     String.length head = 200 /\
     String.length (quick_scene_summary false client sf) = 203).
Proof.
  unfold quick_scene_summary.
  destruct (Nat.ltb_spec 200 (String.length (summarize_scene sf))) as [L|L].
  - split; [lia|]. intros _. exists (take 200 (summarize_scene sf)).
    split; [reflexivity|]. split; [apply take_prefix|].
    assert (E : String.length (take 200 (summarize_scene sf)) = 200)
      by (apply take_exact; lia).
    split; [exact E|]. rewrite append_length, E. reflexivity.
  - split; [reflexivity | lia].
Qed.

(** X19: an "is there" question is answered "Yes" exactly when the scene
    has an instance whose category contains the object word and which
    satisfies the predicate of the direction; a "how many" question with a
    direction keyword is answered by the number of such instances. *)
Theorem exist_and_count_answers (sf : SceneFrame)
  (question obj d : string) (p : InstanceFrame -> bool) :
  In d direction_keywords ->
  getattr_is d = Ok p ->
  (routes_to_exist (lower question) = true ->
   object_after "is there a " (lower question) = Ok obj ->
   or_default (keyword_in (lower question)) "ahead" = d ->
   (answer sf question = Ok (AText "Yes")
    \/ answer sf question = Ok (AText "No"))
   /\ (answer sf question = Ok (AText "Yes") <->
       exists inst,
         In inst (instances sf) /\
         contains obj (category_name inst) = true /\ p inst = true))
  /\
  (routes_to_count (lower question) = true ->
   object_after "how many " (lower question) = Ok obj ->
   keyword_in (lower question) = Some d ->
   answer sf question
   = Ok (ACount
           (List.length
              (filter (fun inst =>
                         contains obj (category_name inst) && p inst)
                      (instances sf))))).
Proof.
  intros Hd G. split.
  - intros R O D.
    rewrite (answer_exist sf question R), O, D. cbn [bind].
    rewrite (query_exist_resolved sf obj d p G). cbn [bind].
    assert (E : existsb p (matching sf obj) = true <->
                exists inst,
                  In inst (instances sf) /\
                  contains obj (category_name inst) = true /\
                  p inst = true).
    { rewrite existsb_exists. unfold matching.
      split; intros (inst & H1 & H2); exists inst.
      - apply filter_In in H1. tauto.
      - split; [apply filter_In; tauto | tauto]. }
    destruct (existsb p (matching sf obj)).
    + split; [now left|]. split; [intros _; now apply E | reflexivity].
    + split; [now right|]. split; [discriminate|].
      intros H. apply E in H. discriminate.
  - intros R O K.
    rewrite (answer_count sf question R), O, K. cbn [bind].
    rewrite (query_count_keyword sf obj d p G Hd). cbn [bind].
    unfold matching. do 3 f_equal.
    induction (instances sf) as [|i l IH]; simpl; [reflexivity|].
    destruct (contains obj (category_name i)); simpl;
      [destruct (p i); simpl; now rewrite IH | exact IH].
Qed.

End MoreBranches.

(** ** Walking the samples of a scene *)

Module DatasetFacts.

Import Dataset.

Lemma collect_annotations_reaches (nusc : NuScenes) (token token' : string)
  (visited : list string) :
  reaches nusc token visited token' ->
  forall fuel annotations,
    collect_annotations nusc (List.length visited + fuel) token annotations
    = collect_annotations nusc fuel token'
        (annotations
         ++ flat_map (fun t => anns (sample_of nusc t)) visited).
Proof.
  induction 1 as [token|token s rest token' T S _ IH];
    intros fuel annotations.
  - simpl. now rewrite app_nil_r.
  - cbn [List.length Nat.add collect_annotations flat_map].
    rewrite T, S, IH. unfold sample_of at 2. rewrite S.
    now rewrite app_assoc.
Qed.

Lemma collect_annotations_chain (nusc : NuScenes) (token : string)
  (visited : list string) (fuel : nat) :
  chain nusc token visited ->
  List.length visited < fuel ->
  collect_annotations nusc fuel token []
  = Returns (flat_map (fun t => anns (sample_of nusc t)) visited).
Proof.
  intros C L.
  replace fuel with (List.length visited + S (fuel - S (List.length visited)))
    by lia.
  rewrite (collect_annotations_reaches _ _ _ _ C). reflexivity.
Qed.

Lemma instance_tokens_resolved (nusc : NuScenes) (annotations : list string) :
  (forall ann, In ann annotations -> instance_token nusc ann <> None) ->
  exists tokens,
    instance_tokens nusc annotations = Returns tokens /\
    forall x, In x tokens <->
              exists ann, In ann annotations /\
                          instance_token nusc ann = Some x.
Proof.
  induction annotations as [|ann rest IH]; intros R.
  - exists []. split; [reflexivity|]. intros x. split; [contradiction|].
    intros (ann & [] & _).
  - destruct IH as (tokens & E & I).
    { intros a Ha. apply R. now right. }
    destruct (instance_token nusc ann) as [token|] eqn:T.
    + exists (token :: tokens). split; [simpl; now rewrite T, E|].
      intros x. simpl. rewrite I. split.
      * intros [<-|(a & Ha & Ta)]; [exists ann | exists a]; auto.
      * intros (a & [<-|Ha] & Ta); [left; congruence | right; eauto].
    + exfalso. apply (R ann); [now left | exact T].
Qed.

Lemma instance_tokens_unresolved (nusc : NuScenes)
  (known : list string) (ann : string) (rest : list string) :
  (forall a, In a known -> instance_token nusc a <> None) ->
  instance_token nusc ann = None ->
  instance_tokens nusc (known ++ ann :: rest)
  = Raises (KeyError "sample_annotation" ann).
Proof.
  intros K U. induction known as [|a known IH]; simpl.
  - now rewrite U.
  - destruct (instance_token nusc a) eqn:T.
    + rewrite IH; [reflexivity|]. intros b Hb. apply K. now right.
    + exfalso. apply (K a); [now left | exact T].
Qed.

(** A set of tokens closed under [next] and made of tokens of the table:
    the walk never leaves it, so it never ends. *)
Lemma collect_annotations_trapped (nusc : NuScenes) (P : string -> Prop) :
  (forall t, P t -> truthy t = true /\
                    exists s, sample nusc t = Some s /\ P (next s)) ->
  forall fuel token annotations,
    P token -> collect_annotations nusc fuel token annotations = OutOfFuel.
Proof.
  intros Closed. induction fuel as [|fuel IH]; intros token annotations H.
  - reflexivity.
  - destruct (Closed token H) as (T & s & S & N).
    simpl. rewrite T, S. now apply IH.
Qed.

Lemma reaches_cycle_closed (nusc : NuScenes) (token : string)
  (cycle : list string) :
  reaches nusc token cycle token -> cycle <> [] ->
  forall t, (exists l, reaches nusc t l token) ->
            truthy t = true /\
            exists s, sample nusc t = Some s /\
                      exists l, reaches nusc (next s) l token.
Proof.
  intros C N t [l R].
  assert (Step : forall t l, reaches nusc t l token -> l <> [] ->
            truthy t = true /\
            exists s, sample nusc t = Some s /\
                      exists l', reaches nusc (next s) l' token).
  { intros t0 l0 R0 N0. destruct R0; [congruence|]. eauto. }
  destruct l as [|x l].
  - inversion R; subst. now apply (Step token cycle).
  - apply (Step t (x :: l)); [exact R | discriminate].
Qed.

Section BuildInstances.

Context {ext : Externals}.
Variable new_instance_frame : string -> InstanceFrame.

(** X13: on a scene whose samples form a finite chain and whose
    annotations are all in the table, [_build_instances] returns (with any
    fuel above the number of samples) one [InstanceFrame] per distinct
    instance token: no token is used twice, and the tokens used are exactly
    those of the annotations of the samples of the scene. *)
Theorem build_instances_one_per_instance (nusc : NuScenes)
  (scene_index : nat) (sc : SceneRecord) (visited : list string)
  (fuel : nat) :
  iterates_as_set set_iter ->
  nth_error (scene nusc) scene_index = Some sc ->
  chain nusc (first_sample_token sc) visited ->
  (forall t ann, In t visited -> In ann (anns (sample_of nusc t)) ->
                 instance_token nusc ann <> None) ->
  List.length visited < fuel ->
  exists tokens,
    build_instances new_instance_frame nusc scene_index fuel
      = Returns (map new_instance_frame tokens) /\
    NoDup tokens /\
    forall token,
      In token tokens <->
      exists t ann, In t visited /\ In ann (anns (sample_of nusc t)) /\
                    instance_token nusc ann = Some token.
Proof.
  intros SetLike Sc C Known L.
  destruct (instance_tokens_resolved nusc
              (flat_map (fun t => anns (sample_of nusc t)) visited))
    as (tokens & E & I).
  { intros ann Hann. apply in_flat_map in Hann.
    destruct Hann as (t & Ht & Ha). now apply (Known t). }
  destruct (SetLike tokens) as [ND Same].
  exists (set_iter tokens). split.
  - unfold build_instances.
    now rewrite Sc, (collect_annotations_chain _ _ _ _ C L), E.
  - split; [exact ND|]. intros token. rewrite Same, I. split.
    + intros (ann & Hann & T). apply in_flat_map in Hann.
      destruct Hann as (t & Ht & Ha). eauto.
    + intros (t & ann & Ht & Ha & T). exists ann. split; [|exact T].
      apply in_flat_map. eauto.
Qed.


(** X15: when the samples of a scene lead into a cycle of [next] links,
    the loop of [_build_instances] never ends: whatever the fuel, it
    neither returns nor raises. *)
Theorem build_instances_cycle (nusc : NuScenes) (scene_index : nat)
  (sc : SceneRecord) (lead cycle : list string) (token : string) :
  nth_error (scene nusc) scene_index = Some sc ->
  reaches nusc (first_sample_token sc) lead token ->
  reaches nusc token cycle token ->
  cycle <> [] ->
  forall fuel,
    build_instances new_instance_frame nusc scene_index fuel = OutOfFuel.
Proof.
  intros Sc Lead Cycle N fuel. unfold build_instances. rewrite Sc.
  rewrite (collect_annotations_trapped nusc
             (fun t => exists l, reaches nusc t l token)); [reflexivity| |].
  - apply (reaches_cycle_closed nusc token cycle Cycle N).
  - eauto.
Qed.

End BuildInstances.

(** *** The loop of [generate_scene_visuals] *)

Lemma due_divides (frame_skip : Z) (count : nat) :
  frame_skip <> 0%Z ->
  due frame_skip count
  = Returns ((count mod Z.abs_nat frame_skip =? 0)%nat).
Proof.
  intros N. unfold due.
  destruct (Z.eqb_spec frame_skip 0) as [E|_]; [contradiction|].
  f_equal. apply eq_true_iff_eq.
  rewrite Z.eqb_eq, Nat.eqb_eq.
  assert (K : Z.of_nat (Z.abs_nat frame_skip) <> 0%Z) by lia.
  rewrite (Z.mod_divide _ _ N), <- Z.divide_abs_l.
  rewrite <- Zabs2Nat.id_abs, <- (Z.mod_divide _ _ K).
  rewrite <- Nat2Z.inj_mod. lia.
Qed.

Section VisualsLoop.

Variable path_join : string -> string -> string.
Variable io : IO.
Variable nusc : NuScenes.
Variable output_dir : string.
Variable frame_skip : Z.
Hypothesis skip_nonzero : frame_skip <> 0%Z.

Let k := Z.abs_nat frame_skip.

Lemma k_positive : 0 < k.
Proof. unfold k. lia. Qed.

Lemma with_count_same (st : Visuals) : with_count st (frame_count st) = st.
Proof. now destruct st. Qed.

(** Between two renderings the body only counts: the token is re-read from
    the sample rendered last. *)
Lemma body_idle (st : Visuals) (s : Sample) :
  cur_sample st = Some s ->
  sample_token st = next s ->
  (frame_count st mod k <> 0)%nat ->
  visuals_body path_join io nusc output_dir frame_skip st
  = Returns (with_count st (S (frame_count st))).
Proof.
  intros C T M. unfold visuals_body.
  rewrite (due_divides _ _ skip_nonzero). fold k.
  destruct (Nat.eqb_spec (frame_count st mod k) 0) as [E|_]; [contradiction|].
  unfold advance, with_count. now rewrite C, T.
Qed.

Lemma loop_idle (s : Sample) (j : nat) :
  forall (st : Visuals) (fuel : nat),
    cur_sample st = Some s ->
    sample_token st = next s ->
    truthy (next s) = true ->
    (forall i, i < j -> ((frame_count st + i) mod k <> 0)%nat) ->
    visuals_loop path_join io nusc output_dir frame_skip (j + fuel) st
    = visuals_loop path_join io nusc output_dir frame_skip fuel
        (with_count st (frame_count st + j)).
Proof.
  induction j as [|j IH]; intros st fuel C T N M.
  - rewrite Nat.add_0_r, with_count_same. reflexivity.
  - cbn [Nat.add visuals_loop]. rewrite T, N.
    rewrite (body_idle st s C T).
    + rewrite (IH (with_count st (S (frame_count st))) fuel C T N).
      * cbn [with_count frame_count]. f_equal. unfold with_count. cbn.
        f_equal. lia.
      * intros i Hi. cbn [with_count frame_count].
        replace (S (frame_count st) + i) with (frame_count st + S i) by lia.
        apply M. lia.
    + specialize (M 0). rewrite Nat.add_0_r in M. apply M. lia.
Qed.

Lemma body_due (st : Visuals) (s : Sample) :
  sample nusc (sample_token st) = Some s ->
  frame_ok io (front_frame_of path_join nusc output_dir (sample_token st))
    = true ->
  frame_ok io (lidar_frame_of path_join nusc output_dir (sample_token st))
    = true ->
  (frame_count st mod k = 0)%nat ->
  visuals_body path_join io nusc output_dir frame_skip st
  = Returns {|
      sample_token := next s;
      front_frames :=
        front_frames st
        ++ [front_frame_of path_join nusc output_dir (sample_token st)];
      lidar_frames :=
        lidar_frames st
        ++ [lidar_frame_of path_join nusc output_dir (sample_token st)];
      first_front_img :=
        keep_first (first_front_img st)
          (snd (front_frame_of path_join nusc output_dir (sample_token st)));
      first_lidar_img :=
        keep_first (first_lidar_img st)
          (snd (lidar_frame_of path_join nusc output_dir (sample_token st)));
      frame_count := S (frame_count st);
      cur_sample := Some s
    |}.
Proof.
  intros Hs Front Lidar M. unfold visuals_body.
  rewrite (due_divides _ _ skip_nonzero). fold k. rewrite M. cbn [Nat.eqb].
  unfold frame_ok, front_frame_of, lidar_frame_of, sample_of in Front, Lidar.
  rewrite Hs in Front, Lidar. cbn [fst snd] in Front, Lidar.
  apply andb_prop in Front, Lidar.
  destruct Front as [F1 F2], Lidar as [L1 L2].
  unfold render. rewrite Hs, F1, F2, L1, L2. cbn [negb].
  unfold advance. cbn.
  unfold front_frame_of, lidar_frame_of, sample_of. rewrite Hs. reflexivity.
Qed.

Lemma mod_after (c i : nat) :
  (c mod k = 0)%nat -> i < k - 1 -> ((S c + i) mod k <> 0)%nat.
Proof.
  intros M L. pose proof k_positive as K.
  replace (S c + i) with (c + S i) by lia.
  rewrite Nat.Div0.add_mod, M, Nat.add_0_l, Nat.Div0.mod_mod.
  rewrite Nat.mod_small; lia.
Qed.

Lemma mod_next (c : nat) :
  (c mod k = 0)%nat -> ((S c + (k - 1)) mod k = 0)%nat.
Proof.
  intros M. pose proof k_positive as K.
  replace (S c + (k - 1)) with (c + k) by lia.
  rewrite Nat.Div0.add_mod, M, Nat.Div0.mod_same. cbn [Nat.add].
  now apply Nat.mod_small.
Qed.

Lemma keep_first_fold (paths : list string) (p : string) :
  fold_left keep_first paths (Some p) = Some p.
Proof. induction paths as [|x l IH]; simpl; [reflexivity | exact IH]. Qed.

Lemma loop_renders_chain (token : string) (visited : list string) :
  chain nusc token visited ->
  (forall t, In t visited ->
     frame_ok io (front_frame_of path_join nusc output_dir t) = true /\
     frame_ok io (lidar_frame_of path_join nusc output_dir t) = true) ->
  forall (st : Visuals) (fuel : nat),
    sample_token st = token ->
    (frame_count st mod k = 0)%nat ->
    k * List.length visited < fuel ->
    exists final,
      visuals_loop path_join io nusc output_dir frame_skip fuel st
        = Returns final /\
      front_frames final
        = front_frames st
          ++ map (front_frame_of path_join nusc output_dir) visited /\
      lidar_frames final
        = lidar_frames st
          ++ map (lidar_frame_of path_join nusc output_dir) visited /\
      first_front_img final
        = fold_left keep_first
            (map (fun t => snd (front_frame_of path_join nusc output_dir t))
                 visited)
            (first_front_img st) /\
      first_lidar_img final
        = fold_left keep_first
            (map (fun t => snd (lidar_frame_of path_join nusc output_dir t))
                 visited)
            (first_lidar_img st).
Proof.
  unfold chain. intros C.
  remember EmptyString as stop eqn:Stop.
  induction C as [token|token s rest token' T Hs C IH];
    intros Fine st fuel Tok M F.
  - subst token. exists st. destruct fuel as [|fuel]; [simpl in F; lia|].
    cbn [visuals_loop]. rewrite Tok. cbn [truthy map fold_left].
    rewrite !app_nil_r. repeat split.
  - assert (Fine' : forall t, In t rest ->
              frame_ok io (front_frame_of path_join nusc output_dir t)
                = true /\
              frame_ok io (lidar_frame_of path_join nusc output_dir t)
                = true)
      by (intros t Ht; apply Fine; now right).
    destruct (Fine token (or_introl eq_refl)) as [Front Lidar].
    specialize (IH Stop Fine'). pose proof k_positive as K.
    destruct fuel as [|fuel]; [lia|].
    cbn [visuals_loop]. rewrite Tok, T.
    rewrite <- Tok in Hs, Front, Lidar.
    rewrite (body_due st s Hs Front Lidar M). rewrite Tok.
    set (st1 := {| sample_token := next s;
                   front_frames := _; lidar_frames := _;
                   first_front_img := _; first_lidar_img := _;
                   frame_count := S (frame_count st);
                   cur_sample := Some s |}).
    destruct rest as [|t' rest].
    + assert (E : next s = EmptyString)
        by (inversion C; subst; assumption).
      exists st1.
      destruct fuel as [|fuel]; [cbn [List.length] in F; lia|].
      cbn [visuals_loop]. unfold st1 at 1. cbn [sample_token].
      rewrite E. cbn [truthy]. repeat split.
    + assert (N : truthy (next s) = true) by (inversion C; subst; assumption).
      cbn [List.length] in F.
      replace fuel with ((k - 1) + (fuel - (k - 1))) by nia.
      rewrite (loop_idle s (k - 1) st1 _ eq_refl eq_refl N).
      2:{ intros i Hi. unfold st1. cbn [frame_count]. now apply mod_after. }
      destruct (IH (with_count st1 (frame_count st1 + (k - 1)))
                   (fuel - (k - 1)))
        as (final & L & FF & LF & P1 & P2).
      * reflexivity.
      * unfold st1. cbn [with_count frame_count]. now apply mod_next.
      * cbn [List.length]. nia.
      * exists final. split; [exact L|].
        cbn [with_count front_frames lidar_frames first_front_img
               first_lidar_img] in FF, LF, P1, P2.
        unfold st1 in FF, LF, P1, P2.
        cbn [front_frames lidar_frames first_front_img first_lidar_img]
          in FF, LF, P1, P2.
        rewrite FF, LF, P1, P2.
        cbn [map fold_left]. rewrite <- !app_assoc. repeat split.
Qed.

End VisualsLoop.

Lemma keep_first_head (paths : list string) :
  fold_left keep_first paths None = hd_error paths.
Proof.
  destruct paths as [|p l]; [reflexivity|]. simpl. apply keep_first_fold.
Qed.

(** X16: with a [frame_skip] other than zero, when the output directory
    can be created, every image of the chain can be rendered and read back
    and the two videos can be written, [generate_scene_visuals] renders
    every sample of a finite chain, in order and once each, for the front
    camera and for the LIDAR: [frame_skip] leaves no sample out.  The
    previews are the images of the first sample. *)
Theorem visuals_render_every_sample
  (path_join : string -> string -> string) (io : IO) (nusc : NuScenes)
  (output_dir : string) (frame_skip : Z) (scene_index : nat)
  (sc : SceneRecord) (visited : list string) (fuel : nat) :
  frame_skip <> 0%Z ->
  makedirs io output_dir = true ->
  nth_error (scene nusc) scene_index = Some sc ->
  chain nusc (first_sample_token sc) visited ->
  (forall t, In t visited ->
     frame_ok io (front_frame_of path_join nusc output_dir t) = true /\
     frame_ok io (lidar_frame_of path_join nusc output_dir t) = true) ->
  mimsave io (path_join output_dir "front_camera.mp4")
    (map (front_frame_of path_join nusc output_dir) visited) = true ->
  mimsave io (path_join output_dir "lidar_bev.mp4")
    (map (lidar_frame_of path_join nusc output_dir) visited) = true ->
  Z.abs_nat frame_skip * List.length visited < fuel ->
  generate_scene_visuals path_join io nusc output_dir frame_skip
    scene_index fuel
  = Returns {|
      preview_front :=
        hd_error
          (map (fun t => snd (front_frame_of path_join nusc output_dir t))
               visited);
      preview_lidar :=
        hd_error
          (map (fun t => snd (lidar_frame_of path_join nusc output_dir t))
               visited);
      front_video :=
        (path_join output_dir "front_camera.mp4",
         map (front_frame_of path_join nusc output_dir) visited);
      lidar_video :=
        (path_join output_dir "lidar_bev.mp4",
         map (lidar_frame_of path_join nusc output_dir) visited)
    |}.
Proof.
  intros N Dir Sc C Fine VF VL F. unfold generate_scene_visuals.
  rewrite Dir, Sc. cbn [negb].
  destruct (loop_renders_chain path_join io nusc output_dir frame_skip N
              _ _ C Fine
              {| sample_token := first_sample_token sc;
                 front_frames := []; lidar_frames := [];
                 first_front_img := None; first_lidar_img := None;
                 frame_count := 0; cur_sample := None |}
              fuel eq_refl)
    as (final & L & FF & LF & P1 & P2).
  - cbn [frame_count]. apply Nat.Div0.mod_0_l.
  - exact F.
  - rewrite L. cbv zeta. rewrite FF, LF, P1, P2.
    cbn [front_frames lidar_frames first_front_img first_lidar_img app].
    rewrite VF, VL. cbn [negb]. now rewrite !keep_first_head.
Qed.


End DatasetFacts.

(** ** The tracks of the scene snapshot *)

Lemma insert_by_track_length_perm (x : InstanceFrame)
  (l : list InstanceFrame) :
  Permutation (x :: l) (insert_by_track_length x l).
Proof.
  induction l as [|y l IH]; simpl; [apply Permutation_refl|].
  destruct (List.length (locations y) <=? List.length (locations x))%nat.
  - apply Permutation_refl.
  - apply perm_trans with (y :: x :: l); [apply perm_swap|].
    now apply perm_skip.
Qed.

Lemma sorted_by_track_length_perm (l : list InstanceFrame) :
  Permutation l (sorted_by_track_length l).
Proof.
  induction l as [|x l IH]; simpl; [constructor|].
  apply perm_trans with (x :: sorted_by_track_length l);
    [now apply perm_skip | apply insert_by_track_length_perm].
Qed.

Lemma insert_by_track_length_sorted (x : InstanceFrame)
  (l : list InstanceFrame) :
  StronglySorted no_shorter l ->
  StronglySorted no_shorter (insert_by_track_length x l).
Proof.
  induction 1 as [|y l S IH F]; simpl.
  - repeat constructor.
  - destruct (Nat.leb_spec (List.length (locations y))
                           (List.length (locations x))) as [L|L].
    + constructor; [now constructor|]. constructor; [exact L|].
      eapply Forall_impl; [|exact F]. unfold no_shorter. intros z Hz. lia.
    + constructor; [exact IH|].
      apply (Permutation_Forall (insert_by_track_length_perm x l)).
      constructor; [unfold no_shorter; lia | exact F].
Qed.

Lemma sorted_by_track_length_sorted (l : list InstanceFrame) :
  StronglySorted no_shorter (sorted_by_track_length l).
Proof.
  induction l as [|x l IH]; simpl; [constructor|].
  now apply insert_by_track_length_sorted.
Qed.

Lemma strongly_sorted_app {A : Type} (R : A -> A -> Prop) (a b : list A) :
  StronglySorted R (a ++ b) ->
  StronglySorted R a /\ forall x y, In x a -> In y b -> R x y.
Proof.
  induction a as [|z a IH]; simpl; intros S.
  - split; [constructor | contradiction].
  - inversion S as [|? ? S' F]; subst. destruct (IH S') as [Sa D].
    split.
    + constructor; [exact Sa|]. apply Forall_forall. intros w Hw.
      rewrite Forall_forall in F. apply F, in_or_app. now left.
    + intros x y [<-|Hx] Hy; [|now apply D].
      rewrite Forall_forall in F. apply F, in_or_app. now right.
Qed.

(** Tracks of equal length keep their order, as with [sorted]. *)
Example sorted_by_track_length_is_stable :
  map category_name
    (sorted_by_track_length
       [ {| category_name := "a"; locations := [(0, 1)%float] |};
         {| category_name := "b";
            locations := [(0, 1)%float; (0, 2)%float] |};
         {| category_name := "c"; locations := [(0, 3)%float] |};
         {| category_name := "d"; locations := [] |} ])
  = ["b"; "a"; "c"; "d"].
Proof. reflexivity. Qed.

(** X18: the scene snapshot plots [max_objects] tracks, or all of them if
    there are fewer; they come by decreasing number of locations, no
    instance left out has more locations than a plotted one, and each
    legend label has at most 20 characters. *)
Theorem snapshot_plots_longest_tracks (sf : SceneFrame)
  (max_objects : nat) :
  List.length (moving_instances sf max_objects)
    = Nat.min max_objects (List.length (instances sf))
  /\ StronglySorted no_shorter (moving_instances sf max_objects)
  /\ (exists left_out,
        Permutation (instances sf)
          (moving_instances sf max_objects ++ left_out) /\
        forall plotted other,
          In plotted (moving_instances sf max_objects) ->
          In other left_out ->
          List.length (locations other)
            <= List.length (locations plotted))
  /\ Forall (fun label => String.length label <= 20)
       (snapshot_labels sf max_objects).
Proof.
  unfold moving_instances, snapshot_labels.
  pose proof (sorted_by_track_length_perm (instances sf)) as P.
  pose proof (sorted_by_track_length_sorted (instances sf)) as S.
  rewrite <- (firstn_skipn max_objects
                (sorted_by_track_length (instances sf))) in S.
  apply strongly_sorted_app in S. destruct S as [S D].
  split.
  { rewrite length_firstn, (Permutation_length P). reflexivity. }
  split; [exact S|]. split.
  - exists (skipn max_objects (sorted_by_track_length (instances sf))).
    split; [now rewrite firstn_skipn | exact D].
  - apply Forall_forall. intros label Hl. apply in_map_iff in Hl.
    destruct Hl as (inst & <- & _). apply take_length.
Qed.

(** ** The further properties on the sample data *)

Lemma distinct_iterates_as_set : iterates_as_set Reference.distinct.
Proof.
  intros l. unfold Reference.distinct. split.
  - apply NoDup_rev, NoDup_nodup.
  - intros x. rewrite <- in_rev, nodup_In, <- in_rev. tauto.
Qed.

Lemma unknown_direction_witness :
  ~ In "nowhere" direction_keywords
  /\ @query_exist Reference.externals Reference.bus_truck_scene
       "bus" "nowhere" = Raise (AttributeError "is_nowhere")
  /\ @query_count Reference.externals Reference.bus_truck_scene
       "bus" (Some "nowhere") = Raise (AttributeError "is_nowhere")
  /\ @query_count Reference.externals Reference.bus_truck_scene
       "pedestrian" (Some "nowhere") = Ok 0.
Proof.
  assert (N : ~ In "nowhere" direction_keywords)
    by (intros [H|[H|[H|[H|[]]]]]; discriminate).
  split; [exact N|].
  destruct (@unknown_direction Reference.externals
              Reference.bus_truck_scene "bus" "nowhere" N) as [E Q].
  destruct (@unknown_direction Reference.externals
              Reference.bus_truck_scene "pedestrian" "nowhere" N)
    as [_ Q'].
  split; [exact E|]. split; [exact Q | exact Q'].
Defined.

Lemma queries_ignore_instance_order_witness :
  Permutation (instances Reference.bus_truck_scene)
    (instances {| instances := [Reference.truck; Reference.bus] |})
  /\ In "ahead" direction_keywords
  /\ (@query_exist Reference.externals Reference.bus_truck_scene
        "vehicle" "ahead"
      = @query_exist Reference.externals
          {| instances := [Reference.truck; Reference.bus] |}
          "vehicle" "ahead"
      /\ @query_count Reference.externals Reference.bus_truck_scene
           "vehicle" (Some "ahead")
         = @query_count Reference.externals
             {| instances := [Reference.truck; Reference.bus] |}
             "vehicle" (Some "ahead")
      /\ @query_count Reference.externals Reference.bus_truck_scene
           "vehicle" None
         = @query_count Reference.externals
             {| instances := [Reference.truck; Reference.bus] |}
             "vehicle" None).
Proof.
  assert (P : Permutation (instances Reference.bus_truck_scene)
                (instances {| instances := [Reference.truck; Reference.bus] |}))
    by apply perm_swap.
  assert (D : In "ahead" direction_keywords) by (simpl; auto).
  split; [exact P|]. split; [exact D|].
  exact (@queries_ignore_instance_order Reference.externals
           Reference.bus_truck_scene
           {| instances := [Reference.truck; Reference.bus] |}
           "vehicle" "ahead" P D).
Defined.

Lemma broader_term_matches_more_witness :
  contains "bus" "vehicle.bus" = true
  /\ In "ahead" direction_keywords
  /\ exists n_short n_long m_short m_long b_short b_long,
       @query_count Reference.externals Reference.bus_truck_scene
         "bus" None = Ok n_short /\
       @query_count Reference.externals Reference.bus_truck_scene
         "vehicle.bus" None = Ok n_long /\ n_long <= n_short /\
       @query_count Reference.externals Reference.bus_truck_scene
         "bus" (Some "ahead") = Ok m_short /\
       @query_count Reference.externals Reference.bus_truck_scene
         "vehicle.bus" (Some "ahead") = Ok m_long /\ m_long <= m_short /\
       @query_exist Reference.externals Reference.bus_truck_scene
         "bus" "ahead" = Ok b_short /\
       @query_exist Reference.externals Reference.bus_truck_scene
         "vehicle.bus" "ahead" = Ok b_long /\
       (b_long = true -> b_short = true).
Proof.
  split; [reflexivity|]. split; [simpl; auto|].
  apply (@broader_term_matches_more Reference.externals
           Reference.bus_truck_scene "bus" "vehicle.bus" "ahead");
    [reflexivity | simpl; auto].
Defined.

Lemma count_answer_within_scene_witness :
  @answer Reference.externals Reference.bus_truck_scene
    "How many vehicle" = Ok (ACount 2)
  /\ routes_to_count (lower "How many vehicle") = true
  /\ 2 <= List.length (instances Reference.bus_truck_scene).
Proof.
  split; [reflexivity|].
  apply (@count_answer_within_scene Reference.externals
           Reference.bus_truck_scene "How many vehicle" 2).
  reflexivity.
Defined.

Lemma closer_term_in_either_order_witness :
  routes_to_closer (lower "Which is closer, truck or bus") = true
  /\ routes_to_closer (lower "Which is closer, bus or truck") = true
  /\ @nearest_distance Reference.externals Reference.bus_truck_scene
       "truck" = Ok 4%float
  /\ @nearest_distance Reference.externals Reference.bus_truck_scene
       "bus" = Ok 10%float
  /\ PrimFloat.ltb 4 10 = true
  /\ @answer Reference.externals Reference.bus_truck_scene
       "Which is closer, truck or bus" = Ok (AText "truck")
  /\ @answer Reference.externals Reference.bus_truck_scene
       "Which is closer, bus or truck" = Ok (AText "truck").
Proof.
  split; [reflexivity|]. split; [reflexivity|]. split; [reflexivity|].
  split; [reflexivity|]. split; [reflexivity|].
  apply (proj1 (@closer_term_in_either_order Reference.externals
                  Reference.bus_truck_scene
                  "Which is closer, truck or bus"
                  "Which is closer, bus or truck"
                  "truck" "bus" [] [] 4%float 10%float
                  eq_refl eq_refl eq_refl eq_refl eq_refl eq_refl)).
  reflexivity.
Defined.

Lemma object_is_first_word_without_phrase_witness :
  routes_to_exist (lower "Is there any bus ahead?") = true
  /\ contains "is there a " (lower "Is there any bus ahead?") = false
  /\ exists word rest b,
       split_ws (lower "Is there any bus ahead?") = word :: rest /\
       @query_exist Reference.externals Reference.bus_truck_scene word
         (or_default (keyword_in (lower "Is there any bus ahead?")) "ahead")
         = Ok b /\
       @answer Reference.externals Reference.bus_truck_scene
         "Is there any bus ahead?"
       = Ok (AText (if b then "Yes" else "No")).
Proof.
  split; [reflexivity|]. split; [reflexivity|].
  apply (proj1 (@object_is_first_word_without_phrase Reference.externals
                  Reference.bus_truck_scene "Is there any bus ahead?"));
    reflexivity.
Defined.

Lemma summarize_scene_app_witness :
  [Reference.bus] <> [] /\ [Reference.truck] <> []
  /\ @summarize_scene Reference.externals
       {| instances := [Reference.bus] ++ [Reference.truck] |}
     = (@summarize_scene Reference.externals
          {| instances := [Reference.bus] |} ++ " "
        ++ @summarize_scene Reference.externals
             {| instances := [Reference.truck] |})%string.
Proof.
  split; [discriminate|]. split; [discriminate|].
  apply (proj2 (@summarize_scene_app Reference.externals
                  [Reference.bus] [Reference.truck])); discriminate.
Defined.

Lemma quick_summary_without_client_witness :
  String.length
    (@summarize_scene Reference.externals Reference.bus_truck_scene) <= 200
  /\ @quick_scene_summary Reference.externals false
       Reference.failing_client Reference.bus_truck_scene
     = @summarize_scene Reference.externals Reference.bus_truck_scene
  /\ 200 < String.length
             (@summarize_scene Reference.externals
                {| instances := repeat Reference.bus 6 |})
  /\ String.length
       (@quick_scene_summary Reference.externals false
          Reference.failing_client
          {| instances := repeat Reference.bus 6 |}) = 203.
Proof.
  assert (Short : String.length
            (@summarize_scene Reference.externals
               Reference.bus_truck_scene) <= 200)
    by (vm_compute; lia).
  assert (Long : 200 < String.length
            (@summarize_scene Reference.externals
               {| instances := repeat Reference.bus 6 |}))
    by (vm_compute; lia).
  split; [exact Short|].
  split.
  { exact (proj1 (@quick_summary_without_client Reference.externals
                    Reference.bus_truck_scene Reference.failing_client)
             Short). }
  split; [exact Long|].
  destruct (proj2 (@quick_summary_without_client Reference.externals
                     {| instances := repeat Reference.bus 6 |}
                     Reference.failing_client) Long)
    as (head & _ & _ & _ & E).
  exact E.
Defined.

Lemma mini_chain : Dataset.chain Dataset.mini "s1" ["s1"; "s2"].
Proof.
  unfold Dataset.chain.
  eapply Dataset.reaches_step; [reflexivity | reflexivity |].
  eapply Dataset.reaches_step; [reflexivity | reflexivity |].
  apply Dataset.reaches_here.
Defined.

Lemma build_instances_one_per_instance_witness :
  iterates_as_set (@set_iter Reference.externals)
  /\ Dataset.chain Dataset.mini "s1" ["s1"; "s2"]
  /\ exists tokens,
       @Dataset.build_instances Reference.externals Dataset.bare_instance
         Dataset.mini 0 3
       = Dataset.Returns (map Dataset.bare_instance tokens) /\
       NoDup tokens /\
       forall token,
         In token tokens <->
         exists t ann,
           In t ["s1"; "s2"] /\
           In ann (Dataset.anns (Dataset.sample_of Dataset.mini t)) /\
           Dataset.instance_token Dataset.mini ann = Some token.
Proof.
  split; [exact distinct_iterates_as_set|]. split; [exact mini_chain|].
  apply (@DatasetFacts.build_instances_one_per_instance
           Reference.externals Dataset.bare_instance Dataset.mini 0
           {| Dataset.first_sample_token := "s1" |} ["s1"; "s2"] 3).
  - exact distinct_iterates_as_set.
  - reflexivity.
  - exact mini_chain.
  - intros t ann [<-|[<-|[]]] Hann; simpl in Hann;
      repeat (destruct Hann as [<-|Hann]; [discriminate|]);
      contradiction.
  - simpl. lia.
Defined.


Lemma build_instances_cycle_witness :
  Dataset.reaches Dataset.looping "s1" ["s1"] "s1"
  /\ @Dataset.build_instances Reference.externals Dataset.bare_instance
       Dataset.looping 0 1000 = Dataset.OutOfFuel.
Proof.
  assert (R : Dataset.reaches Dataset.looping "s1" ["s1"] "s1").
  { eapply Dataset.reaches_step; [reflexivity | reflexivity |].
    apply Dataset.reaches_here. }
  split; [exact R|].
  apply (@DatasetFacts.build_instances_cycle Reference.externals
           Dataset.bare_instance Dataset.looping 0
           {| Dataset.first_sample_token := "s1" |} [] ["s1"] "s1").
  - reflexivity.
  - apply Dataset.reaches_here.
  - exact R.
  - discriminate.
Defined.

Lemma visuals_render_every_sample_witness :
  Dataset.chain Dataset.mini "s1" ["s1"; "s2"]
  /\ Dataset.makedirs Dataset.io_fine "scene_output" = true
  /\ Dataset.generate_scene_visuals Dataset.slash_join Dataset.io_fine
       Dataset.mini "scene_output" 5 0 11
     = Dataset.Returns {|
         Dataset.preview_front := Some "scene_output/front_s1.png";
         Dataset.preview_lidar := Some "scene_output/lidar_s1.png";
         Dataset.front_video :=
           ("scene_output/front_camera.mp4",
            [("c1", "scene_output/front_s1.png");
             ("c2", "scene_output/front_s2.png")]);
         Dataset.lidar_video :=
           ("scene_output/lidar_bev.mp4",
            [("l1", "scene_output/lidar_s1.png");
             ("l2", "scene_output/lidar_s2.png")])
       |}.
Proof.
  split; [exact mini_chain|]. split; [reflexivity|].
  apply (DatasetFacts.visuals_render_every_sample Dataset.slash_join
           Dataset.io_fine Dataset.mini "scene_output" 5 0
           {| Dataset.first_sample_token := "s1" |} ["s1"; "s2"] 11).
  - discriminate.
  - reflexivity.
  - reflexivity.
  - exact mini_chain.
  - intros t _. split; reflexivity.
  - reflexivity.
  - reflexivity.
  - simpl. lia.
Defined.


Lemma exist_and_count_answers_witness :
  In "ahead" direction_keywords
  /\ @getattr_is Reference.externals "ahead"
     = Ok (@is_ahead Reference.externals)
  /\ routes_to_exist (lower "Is there a bus ahead?") = true
  /\ @answer Reference.externals Reference.bus_truck_scene
       "Is there a bus ahead?" = Ok (AText "Yes")
  /\ exists inst,
       In inst (instances Reference.bus_truck_scene) /\
       contains "bus" (category_name inst) = true /\
       @is_ahead Reference.externals inst = true.
Proof.
  assert (D : In "ahead" direction_keywords) by (simpl; auto).
  split; [exact D|]. split; [reflexivity|]. split; [reflexivity|].
  split; [reflexivity|].
  apply (proj2 (proj1 (@exist_and_count_answers Reference.externals
                         Reference.bus_truck_scene "Is there a bus ahead?"
                         "bus" "ahead" (@is_ahead Reference.externals)
                         D eq_refl)
                  eq_refl eq_refl eq_refl)).
  reflexivity.
Defined.

(** A bus at distance 5 and two trucks at distances 10 and 3: the nearer
    truck decides, not the first one. *)
Example closer_uses_the_least_distance :
  @answer Reference.externals
    {| instances :=
         [ {| category_name := "vehicle.bus";
              locations := [(3, 4)%float] |};
           {| category_name := "vehicle.truck";
              locations := [(6, 8)%float] |};
           {| category_name := "vehicle.truck";
              locations := [(0, 3)%float] |} ] |}
    "Which is closer, bus or truck" = Ok (AText "truck").
Proof. reflexivity. Qed.
